(** * Forex news enrichment: a shallow embedding of [scraper.py], [utils.py]
    and [config.py]

    The development follows the repository file by file:
    - [Py]       the fragment of Python the code relies on (exceptions, dynamic
                 values, [str.lower], [in] on strings, [str.split]);
    - [Strptime] CPython's [datetime.strptime] for the one format string the
                 scraper uses, and the epoch arithmetic behind [timestamp()];
    - [Config]   the constants of [config.py];
    - [Utils]    the reshaping loop of [reformat_scraped_data] in [utils.py];
    - [Scraper]  the tables and functions of [scraper.py], and the loop of its
                 main block that reads the calendar table.

    Conventions.
    - A Python float is an IEEE 754 binary64 number and is modelled by a
      primitive float, whose literals round to nearest like Python's; an [int]
      is a [Z]; a raised exception is [Raise].
    - Strings are byte strings: case folding, digits and white space are the
      ASCII ones; month and am/pm names are the English ones.
    - A data frame is the list of its rows. In the frame [enrich_data]
      receives the five columns of the CSV file hold strings; other columns
      hold any value.
    - The clock, the sentiment scorer, [math.log1p] and the news service are
      parameters, gathered in [Env]; the requests sent to the service are
      recorded in a trace. *)

From Stdlib Require Import ZArith Floats Ascii String Bool Lia.
From stdpp Require Import base option list strings gmap.

Set Warnings "-inexact-float,-register-all".
Local Open Scope Z_scope.

(** ** The Python fragment *)

Module Py.

(** Exceptions the modelled code can raise. *)
Inductive exn :=
| KeyError (key : string)
| ValueError
| TypeError
| AttributeError
| OverflowError.

Inductive result (A : Type) :=
| Ok (a : A)
| Raise (e : exn).
Arguments Ok {A} a.
Arguments Raise {A} e.

#[global] Instance result_ret : MRet result := λ A a, Ok a.
#[global] Instance result_bind : MBind result := λ A B f m,
  match m with
  | Ok a => f a
  | Raise e => Raise e
  end.
#[global] Instance result_fmap : FMap result := λ A B f m,
  match m with
  | Ok a => Ok (f a)
  | Raise e => Raise e
  end.

(** Dynamically typed values: what a JSON body decodes to and what a cell of
    a data frame may hold. A [PDict] lists its bindings; keys are distinct,
    as in a [dict]. *)
Inductive pyval :=
| PNone
| PBool (b : bool)
| PInt (z : Z)
| PFloat (f : float)
| PStr (s : string)
| PList (l : list pyval)
| PDict (d : list (string * pyval)).

(** Truth value testing, [bool(v)]. A NaN is true: it differs from zero. *)
Definition truthy (v : pyval) : bool :=
  match v with
  | PNone => false
  | PBool b => b
  | PInt z => negb (z =? 0)
  | PFloat f => negb (PrimFloat.eqb f 0%float)
  | PStr s => negb (String.eqb s EmptyString)
  | PList l => match l with [] => false | _ => true end
  | PDict d => match d with [] => false | _ => true end
  end.

(** [int] to [float], exact below [2^53] in magnitude. *)
Definition float_of_Z (z : Z) : float :=
  match z with
  | Z0 => 0%float
  | Zpos _ => PrimFloat.of_uint63 (Uint63.of_Z z)
  | Zneg _ => PrimFloat.opp (PrimFloat.of_uint63 (Uint63.of_Z (- z)))
  end.

(** [dict.get(key, default)] *)
Fixpoint dict_get (d : list (string * pyval)) (key : string) (default : pyval) : pyval :=
  match d with
  | [] => default
  | (k, v) :: d' => if String.eqb k key then v else dict_get d' key default
  end.

(** [str.lower] *)
Definition lower_ascii (c : ascii) : ascii :=
  let n := N_of_ascii c in
  if ((65 <=? n) && (n <=? 90))%N then ascii_of_N (n + 32) else c.

Fixpoint lower (s : string) : string :=
  match s with
  | EmptyString => EmptyString
  | String c s' => String (lower_ascii c) (lower s')
  end.

(** [needle in hay] on strings *)
Fixpoint str_in (needle hay : string) : bool :=
  String.prefix needle hay ||
  match hay with
  | EmptyString => false
  | String _ hay' => str_in needle hay'
  end.

(** White space in the sense of [str.isspace], which [str.split] and the
    [\s] of [re] use. *)
Definition isspace (c : ascii) : bool :=
  let n := N_of_ascii c in
  (((9 <=? n) && (n <=? 13)) || ((28 <=? n) && (n <=? 32)))%N.

(** [str.split()] with no argument: the maximal runs of characters that are
    not white space. [cur] is the token being read. *)
Fixpoint split_go (cur : string) (s : string) : list string :=
  match s with
  | EmptyString => if String.eqb cur EmptyString then [] else [cur]
  | String c s' =>
      if isspace c
      then (if String.eqb cur EmptyString then split_go EmptyString s' else cur :: split_go EmptyString s')
      else split_go (cur +:+ String c EmptyString) s'
  end.

Definition split (s : string) : list string := split_go EmptyString s.

Definition isdigit (c : ascii) : bool :=
  let n := N_of_ascii c in ((48 <=? n) && (n <=? 57))%N.

Definition digit_value (c : ascii) : Z := Z.of_N (N_of_ascii c) - 48.

End Py.
Import Py.

(** ** [datetime.strptime(s, "%b %d, %Y %I:%M%p")]

    CPython turns the format into the regular expression
    [(jan|...|dec)\s+(3[0-1]|[1-2]\d|0[1-9]|[1-9]| [1-9]),\s+(\d\d\d\d)\s+(1[0-2]|0[1-9]|[1-9]):([0-5]\d|\d)(am|pm)]
    (English month and am/pm names, letters compared without case), matches it
    at the start of the string with backtracking, and raises [ValueError] when
    there is no match, when text remains after the match, or when the fields
    do not form a date. *)

Module Strptime.

(** A backtracking matcher lists every way to match a prefix, in the order
    the regular expression engine tries them. *)
Definition matcher (A : Type) : Type := string → list (A * string).

#[global] Instance matcher_ret : MRet matcher := λ A a s, [(a, s)].
#[global] Instance matcher_bind : MBind matcher := λ A B k m s,
  concat (map (λ p : A * string, k (fst p) (snd p)) (m s)).

Definition alt {A} (m1 m2 : matcher A) : matcher A := λ s, m1 s ++ m2 s.

Definition fail {A} : matcher A := λ _, [].

(** One character of a class. *)
Definition one (cls : ascii → bool) : matcher ascii := λ s,
  match s with
  | String c rest => if cls c then [(c, rest)] else []
  | EmptyString => []
  end.

Definition is_char (c : ascii) : ascii → bool := λ c', Ascii.eqb c c'.

Definition between (lo hi : ascii) : ascii → bool := λ c,
  ((N_of_ascii lo <=? N_of_ascii c) && (N_of_ascii c <=? N_of_ascii hi))%N.

(** A literal word, letters compared without case. *)
Fixpoint word (w : string) : matcher unit := λ s,
  match w with
  | EmptyString => [(tt, s)]
  | String a w' =>
      match s with
      | String b rest => if Ascii.eqb (lower_ascii a) (lower_ascii b) then word w' rest else []
      | EmptyString => []
      end
  end.

(** [\s*], greedy: the longest run first. *)
Fixpoint spaces0 (s : string) : list (unit * string) :=
  match s with
  | String c rest => if isspace c then spaces0 rest ++ [(tt, s)] else [(tt, s)]
  | EmptyString => [(tt, s)]
  end.

(** [\s+] *)
Definition spaces1 : matcher unit := λ s,
  match s with
  | String c rest => if isspace c then spaces0 rest else []
  | EmptyString => []
  end.

Definition digit : matcher Z := d ← one isdigit; mret (digit_value d).

(** Two characters of the given classes, read as a decimal number. *)
Definition two (cls1 cls2 : ascii → bool) : matcher Z :=
  a ← one cls1; b ← one cls2; mret (10 * digit_value a + digit_value b).

(** [%d]: [3[0-1]|[1-2]\d|0[1-9]|[1-9]| [1-9]] *)
Definition re_d : matcher Z :=
  alt (two (is_char "3") (between "0" "1"))
 (alt (two (between "1" "2") isdigit)
 (alt (two (is_char "0") (between "1" "9"))
 (alt (d ← one (between "1" "9"); mret (digit_value d))
      (_ ← one (is_char " "); d ← one (between "1" "9"); mret (digit_value d))))).

(** [%Y]: [\d\d\d\d] *)
Definition re_Y : matcher Z :=
  a ← digit; b ← digit; c ← digit; d ← digit; mret (1000 * a + 100 * b + 10 * c + d).

(** [%I]: [1[0-2]|0[1-9]|[1-9]] *)
Definition re_I : matcher Z :=
  alt (two (is_char "1") (between "0" "2"))
 (alt (two (is_char "0") (between "1" "9"))
      (d ← one (between "1" "9"); mret (digit_value d))).

(** [%M]: [[0-5]\d|\d] *)
Definition re_M : matcher Z :=
  alt (two (between "0" "5") isdigit) digit.

(** [%b]: the abbreviated month names in calendar order; the value is the
    month number. *)
Definition a_month : list string :=
  ["jan"; "feb"; "mar"; "apr"; "may"; "jun"; "jul"; "aug"; "sep"; "oct"; "nov"; "dec"].

Fixpoint names_from (i : Z) (names : list string) : matcher Z :=
  match names with
  | [] => fail
  | n :: names' => alt (_ ← word n; mret i) (names_from (i + 1) names')
  end.

Definition re_b : matcher Z := names_from 1 a_month.

(** [%p]: [am|pm]; [true] stands for pm. *)
Definition re_p : matcher bool :=
  alt (_ ← word "am"; mret false) (_ ← word "pm"; mret true).

Record fields := { f_b : Z; f_d : Z; f_Y : Z; f_I : Z; f_M : Z; f_p : bool }.

Definition format_regex : matcher fields :=
  b ← re_b; _ ← spaces1; d ← re_d; _ ← one (is_char ","); _ ← spaces1;
  Y ← re_Y; _ ← spaces1; I ← re_I; _ ← one (is_char ":"); M ← re_M; p ← re_p;
  mret {| f_b := b; f_d := d; f_Y := Y; f_I := I; f_M := M; f_p := p |}.

Record datetime := { year : Z; month : Z; day : Z; hour : Z; minute : Z }.

Definition is_leap (y : Z) : bool :=
  ((y mod 4 =? 0) && negb (y mod 100 =? 0)) || (y mod 400 =? 0).

Definition days_in_month (y m : Z) : Z :=
  if m =? 2 then (if is_leap y then 29 else 28)
  else if (m =? 4) || (m =? 6) || (m =? 9) || (m =? 11) then 30
  else 31.

(** The 12-hour clock: 12am is hour 0, 12pm is hour 12. *)
Definition hour24 (I : Z) (pm : bool) : Z :=
  if pm then (if I =? 12 then 12 else I + 12) else (if I =? 12 then 0 else I).

Definition strptime (data_string : string) : result datetime :=
  match format_regex data_string with
  | [] => Raise ValueError
  | (f, rest) :: _ =>
      if negb (String.eqb rest EmptyString) then Raise ValueError
      else if (1 <=? f_Y f) && (f_d f <=? days_in_month (f_Y f) (f_b f))
      then Ok {| year := f_Y f; month := f_b f; day := f_d f;
                 hour := hour24 (f_I f) (f_p f); minute := f_M f |}
      else Raise ValueError
  end.

(** Days from 1970-01-01 to a date of the proleptic Gregorian calendar. *)
Definition days_from_civil (y m d : Z) : Z :=
  let y' := if m <=? 2 then y - 1 else y in
  let era := y' / 400 in
  let yoe := y' - era * 400 in
  let doy := (153 * (if 2 <? m then m - 3 else m + 9) + 2) / 5 + d - 1 in
  let doe := yoe * 365 + yoe / 4 - yoe / 100 + doy in
  era * 146097 + doe - 719468.

(** [int(pytz.UTC.localize(dt).timestamp() * 1000)]; the seconds are a whole
    number below [2^53 / 1000], so the float product is exact. *)
Definition timestamp_ms (dt : datetime) : Z :=
  (days_from_civil (year dt) (month dt) (day dt) * 86400
   + hour dt * 3600 + minute dt * 60) * 1000.

End Strptime.

Import Strptime.

(** ** [config.py] *)

Module Config.

Definition ALLOWED_ELEMENT_TYPES : gmap string string :=
  list_to_map [("calendar__cell", "date");
               ("calendar__cell calendar__date", "date");
               ("calendar__cell calendar__time", "time");
               ("calendar__cell calendar__currency", "currency");
               ("calendar__cell calendar__impact", "impact");
               ("calendar__cell calendar__event event", "event")].

Definition EXCLUDED_ELEMENT_TYPES : list string :=
  ["calendar__cell calendar__forecast";
   "calendar__cell calendar__graph";
   "calendar__cell calendar__previous"].

Definition ICON_COLOR_MAP : gmap string string :=
  list_to_map [("icon icon--ff-impact-yel", "yellow");
               ("icon icon--ff-impact-ora", "orange");
               ("icon icon--ff-impact-red", "red");
               ("icon icon--ff-impact-gra", "gray")].

Definition ALLOWED_CURRENCY_CODES : list string := ["USD"; "EUR"; "GBP"; "JPY"; "AUD"].
Definition ALLOWED_IMPACT_COLORS : list string := ["red"; "orange"; "yellow"; "gray"].

End Config.
Import Config.

(** ** [utils.py] *)

Module Utils.

(** [row[0]]; the code reads it on rows of 1, 4 or 5 cells only. *)
Definition first_cell (row : list string) : string :=
  match row with
  | cell :: _ => cell
  | [] => EmptyString
  end.

(** [row[-3:]] *)
Definition last_three (row : list string) : list string :=
  drop (length row - 3) row.

(** The loop of lines 18 to 24 over the rows that remain: the rows appended to
    [structured_rows]. *)
Fixpoint structured_rows_from (current_date current_time : string)
    (data : list (list string)) : list (list string) :=
  match data with
  | [] => []
  | row :: data' =>
      if ((length row =? 1) || (length row =? 5))%nat then
        structured_rows_from (first_cell row) current_time data'
      else if (length row =? 4)%nat then
        structured_rows_from current_date (first_cell row) data'
      else if (1 <? length row)%nat then
        (current_date :: current_time :: last_three row)
        :: structured_rows_from current_date current_time data'
      else structured_rows_from current_date current_time data'
  end.

(** [pd.DataFrame(rows, columns=columns)] on a list of rows. A row shorter
    than the longest one is filled with nulls; when the longest row has not
    one cell for each column label the constructor raises [ValueError]; no
    row at all gives a frame without rows. *)
Definition widest (rows : list (list string)) : nat :=
  max_list (length <$> rows).

Definition fill (width : nat) (row : list string) : list (option string) :=
  (Some <$> row) ++ replicate (width - length row) None.

Definition DataFrame (rows : list (list string)) (columns : list string)
    : result (list (list (option string))) :=
  match rows with
  | [] => Ok []
  | _ :: _ =>
      if (widest rows =? length columns)%nat then Ok (fill (widest rows) <$> rows)
      else Raise ValueError
  end.

(** The frame [reformat_scraped_data] builds, writes to
    [news/<month>_news.csv] and returns; [month] only names the file. *)
Definition reformat_scraped_data (data : list (list string)) (month : string)
    : result (list (list (option string))) :=
  let structured_rows := structured_rows_from EmptyString EmptyString data in
  DataFrame structured_rows ["date"; "time"; "currency"; "impact"; "event"].

End Utils.
Import Utils.

(** ** [scraper.py] *)

Module Scraper.

(** *** The world outside the process *)

(** The query string of the GET request to [NEWSAPI_ENDPOINT]. [from_ms] and
    [to_ms] are the instants whose ISO 8601 text the code sends. *)
Record request := {
  q : string;
  from_ms : Z;
  to_ms : Z;
  sortBy : string;
  apiKey : string;
  language : string }.

(** How [requests.get] can fail. *)
Inductive request_error := ConnectionError | Timeout | TooManyRedirects.

(** What [requests.get] does: it raises, or returns a response with a status
    code and a body; [json = None] when [r.json()] raises on that body. *)
Inductive http_outcome :=
| RequestFailed (err : request_error)
| Response (status_code : Z) (json : option pyval).

Record Env := {
  (** [os.environ.get("NEWSAPI_KEY", ...)] *)
  NEWSAPI_KEY : string;
  (** [int(time.time() * 1000)], read once at line 123 *)
  now_ms : Z;
  (** [SentimentIntensityAnalyzer().polarity_scores(text)['compound']] *)
  polarity_compound : string → float;
  (** [math.log1p] *)
  log1p : float → float;
  (** the news service, which may answer according to the requests it has
      already received *)
  http_get : list request → request → http_outcome }.

(** Code that talks to the news service: the requests sent so far are threaded
    through, and kept when an exception is raised. *)
Definition prog (A : Type) : Type := list request → result A * list request.

#[global] Instance prog_ret : MRet prog := λ A a trace, (Ok a, trace).
#[global] Instance prog_bind : MBind prog := λ A B k m trace,
  match m trace with
  | (Ok a, trace') => k a trace'
  | (Raise e, trace') => (Raise e, trace')
  end.

Definition lift {A} (r : result A) : prog A := λ trace, (r, trace).

(** *** Tables *)

Definition COLOR_SEVERITY_MAP : gmap string (string * Z) :=
  list_to_map [("red", ("High", 3)); ("orange", ("Medium", 2));
               ("yellow", ("Low", 1)); ("gray", ("Low", 1))].

(** [COLOR_SEVERITY_MAP[c]] *)
Definition color_severity (c : string) : result (string * Z) :=
  match COLOR_SEVERITY_MAP !! c with
  | Some v => Ok v
  | None => Raise (KeyError c)
  end.

(** The dict is only ever iterated, in insertion order. *)
Definition EVENT_CATEGORIES : list (string * string) :=
  [("Non-Farm Employment", "NFP"); ("GDP", "GDP");
   ("Interest Rate Decision", "RateDecision"); ("CPI", "Inflation");
   ("FOMC", "MonetaryPolicy")].

Definition GEOPOLITICAL_KEYWORDS : list string :=
  ["war"; "sanctions"; "unrest"; "disaster"; "terror"; "conflict"].
Definition COMMODITY_KEYWORDS : list string :=
  ["mining output"; "mining"; "reserves"; "IMF"; "gold supply"].

(** *** Classifier *)

(** The [for k, v in EVENT_CATEGORIES.items()] loop over the remaining items. *)
Fixpoint infer_category_from (items : list (string * string)) (headline : string) : string :=
  match items with
  | [] => "Other"
  | (k, v) :: items' =>
      if str_in (lower k) (lower headline) then v
      else infer_category_from items' headline
  end.

Definition infer_category (headline : string) : string :=
  infer_category_from EVENT_CATEGORIES headline.

(** [text.lower()] exists on strings only. *)
Definition contains_keyword (text : pyval) (keywords : list string) : result bool :=
  match text with
  | PStr s =>
      let text_lower := lower s in
      Ok (existsb (λ kw, str_in (lower kw) text_lower) keywords)
  | _ => Raise AttributeError
  end.

(** *** Coverage adapter *)

Definition DAY_MS : Z := 86400000.

(** [datetime] spans the years 1 to 9999. *)
Definition DATETIME_MIN_MS : Z := -62135596800000.
Definition DATETIME_MAX_MS : Z := 253402300799999.

(** Line 54: [datetime.utcfromtimestamp] raises [ValueError] for a time
    outside these years. *)
Definition datetime_representable (event_time_ms : Z) : bool :=
  (DATETIME_MIN_MS <=? event_time_ms) && (event_time_ms <=? DATETIME_MAX_MS).

(** Lines 55 and 56: shifting [event_time] by a day raises [OverflowError]
    when the result leaves them. *)
Definition window_representable (event_time_ms : Z) : bool :=
  (DATETIME_MIN_MS <=? event_time_ms - DAY_MS) && (event_time_ms + DAY_MS <=? DATETIME_MAX_MS).

Definition coverage_request (E : Env) (keyword : string) (event_time_ms : Z) : request :=
  {| q := keyword;
     from_ms := event_time_ms - DAY_MS;
     to_ms := event_time_ms + DAY_MS;
     sortBy := "relevancy";
     apiKey := NEWSAPI_KEY E;
     language := "en" |}.

(** [r.raise_for_status()] raises on the 4xx and 5xx codes only. *)
Definition raise_for_status (status_code : Z) : bool :=
  (400 <=? status_code) && (status_code <? 600).

(** The body of the [try]: [None] when any statement of it raises. *)
Definition try_total_results (o : http_outcome) : option pyval :=
  match o with
  | RequestFailed _ => None
  | Response status_code json =>
      if raise_for_status status_code then None
      else match json with
           | Some (PDict data) => Some (dict_get data "totalResults" (PInt 0))
           | Some _ => None
           | None => None
           end
  end.

(** The [try] statement: what [coverage_count] holds after it; the bare
    [except] clause catches every exception. *)
Definition coverage_count_of (o : http_outcome) : pyval :=
  match try_total_results o with
  | Some v => v
  | None => PInt 0
  end.

Definition fetch_news_coverage (E : Env) (keyword : string) (event_time_ms : Z) : prog pyval :=
  λ trace,
  if negb (datetime_representable event_time_ms) then (Raise ValueError, trace)
  else if negb (window_representable event_time_ms) then (Raise OverflowError, trace)
  else
    let params := coverage_request E keyword event_time_ms in
    let coverage_count := coverage_count_of (http_get E trace params) in
    (Ok coverage_count, trace ++ [params]).

(** [coverage_count == 0] *)
Definition eq_zero (v : pyval) : bool :=
  match v with
  | PInt z => z =? 0
  | PBool b => negb b
  | PFloat f => PrimFloat.eqb f 0%float
  | _ => false
  end.

(** [1 <= coverage_count <= 5]; ordering a number with a value that is not
    one raises [TypeError]. *)
Definition between_1_and_5 (v : pyval) : result bool :=
  match v with
  | PInt z => Ok ((1 <=? z) && (z <=? 5))
  | PBool b => Ok b
  | PFloat f => Ok (PrimFloat.leb 1%float f && PrimFloat.leb f 5%float)
  | _ => Raise TypeError
  end.

Definition compute_coverage_factor (coverage_count : pyval) : result float :=
  if eq_zero coverage_count then Ok 1.0%float
  else
    in_range ← between_1_and_5 coverage_count;
    if in_range : bool then Ok 1.1%float else Ok 1.2%float.

(** *** Time normalizer *)

(** The f-string [f"{month_str} {day_str}, 2024 {time_str}"] *)
Definition full_str (month_str day_str time_str : string) : string :=
  month_str +:+ " " +:+ day_str +:+ ", 2024 " +:+ time_str.

Definition convert_to_utc_ms (date_str time_str : string) : result (option Z) :=
  let parts := split date_str in
  match parts with
  | _ :: month_str :: day_str :: _ =>
      dt ← strptime (full_str month_str day_str time_str);
      mret (Some (timestamp_ms dt))
  | _ => mret None
  end.

(** *** Orchestrator *)

(** A row of the frame [enrich_data] receives: the five columns the reshaper
    of [utils.py] writes to the CSV file, and whatever other columns the frame
    has, by label. *)
Record RawEventRow := {
  date_label : string;
  time_label : string;
  currency : string;
  impact : string;
  event : string;
  other : list (string * pyval) }.

(** A row of [df] after line 124. *)
Record Row := {
  raw : RawEventRow;
  time_ms : Z;
  severity_category : string;
  severity_level : Z;
  category : string;
  sentiment_score : float;
  historical_volatility : float;
  future_event : bool }.

(** [row[label]] on a row of that frame; a column the code assigned hides an
    input column of the same label. *)
Definition row_getitem (row : Row) (label : string) : result pyval :=
  if String.eqb label "time(ms)" then Ok (PInt (time_ms row))
  else if String.eqb label "severity_category" then Ok (PStr (severity_category row))
  else if String.eqb label "severity_level" then Ok (PInt (severity_level row))
  else if String.eqb label "category" then Ok (PStr (category row))
  else if String.eqb label "sentiment_score" then Ok (PFloat (sentiment_score row))
  else if String.eqb label "historical_volatility" then Ok (PFloat (historical_volatility row))
  else if String.eqb label "future_event" then Ok (PBool (future_event row))
  else if String.eqb label "date" then Ok (PStr (date_label (raw row)))
  else if String.eqb label "time" then Ok (PStr (time_label (raw row)))
  else if String.eqb label "currency" then Ok (PStr (currency (raw row)))
  else if String.eqb label "impact" then Ok (PStr (impact (raw row)))
  else if String.eqb label "event" then Ok (PStr (event (raw row)))
  else match list_find (λ kv, fst kv = label) (other (raw row)) with
       | Some (_, kv) => Ok (snd kv)
       | None => Raise (KeyError label)
       end.

(** [Series.unique()]: the distinct values in order of first appearance. *)
Fixpoint unique_from (seen : list string) (l : list string) : list string :=
  match l with
  | [] => []
  | x :: l' =>
      if bool_decide (x ∈ seen) then unique_from seen l'
      else x :: unique_from (x :: seen) l'
  end.

Definition unique (l : list string) : list string := unique_from [] l.

(** The closure [domain_factor(row)]; [df] is the frame of the enclosing
    call at line 162. *)
Definition domain_factor (df : list Row) (row : Row) : result float :=
  let factor := 1.0%float in
  let factor :=
    if bool_decide (category row ∈ ["RateDecision"; "MonetaryPolicy"])
    then (factor * 1.2)%float else factor in
  let factor :=
    if String.eqb (category row) "Inflation" then (factor * 1.15)%float else factor in
  let factor :=
    if String.eqb (category row) "NFP" then (factor * 1.2)%float else factor in
  headline ← row_getitem row "headline";
  geopolitical ← contains_keyword headline GEOPOLITICAL_KEYWORDS;
  let factor := if geopolitical : bool then (factor * 1.25)%float else factor in
  headline ← row_getitem row "headline";
  commodity ← contains_keyword headline COMMODITY_KEYWORDS;
  let factor := if commodity : bool then (factor * 1.1)%float else factor in
  headline ← row_getitem row "headline";
  let factor :=
    if truthy headline && bool_decide ("USD" ∈ unique (currency ∘ raw <$> df))
    then (factor * 1.1)%float else factor in
  mret factor.

Definition sentiment_factor (s : float) : float :=
  if PrimFloat.ltb s (-0.05)%float then (1 + (PrimFloat.abs s * 0.1))%float
  else 1.0%float.

(** A row of [df] after line 170. *)
Record ScoredRow := {
  base : Row;
  domain_f : float;
  sentiment_f : float }.

(** One iteration of the loop of lines 179 to 198: the values appended to
    [final_severities] and [anticipated_severities]. *)
Definition severity_row (E : Env) (row : ScoredRow) : prog (option float * float) :=
  let official_sev := float_of_Z (severity_level (base row)) in
  let vol_factor := (1 + log1p E (historical_volatility (base row)))%float in
  let sentiment_f := sentiment_f row in
  let domain_f := domain_f row in
  if future_event (base row) then
    let anticipated_sev := (official_sev * vol_factor * 1.0 * sentiment_f * domain_f)%float in
    mret (None, anticipated_sev)
  else
    coverage_count ← fetch_news_coverage E (category (base row)) (time_ms (base row));
    coverage_factor ← lift (compute_coverage_factor coverage_count);
    let final_sev := (official_sev * vol_factor * coverage_factor * sentiment_f * domain_f)%float in
    let anticipated_sev := (official_sev * vol_factor * 1.0 * sentiment_f * domain_f)%float in
    mret (Some final_sev, anticipated_sev).

(** The whole loop: the two lists, in row order. *)
Fixpoint severity_loop (E : Env) (rows : list ScoredRow) : prog (list (option float * float)) :=
  match rows with
  | [] => mret []
  | row :: rows' =>
      sev ← severity_row E row;
      sevs ← severity_loop E rows';
      mret (sev :: sevs)
  end.

(** A row of the frame [enrich_data] returns. *)
Record EnrichedEventRecord := {
  out_time_ms : Z;
  out_severity_level : Z;
  out_severity_category : string;
  out_headline : string;
  out_category : string;
  out_sentiment_score : float;
  out_historical_volatility : float;
  out_future_event : bool;
  final_severity : option float;
  anticipated_severity : float }.

(** Lines 101 and 102 *)
Definition filter_allowed (df : list RawEventRow) : list RawEventRow :=
  let df := filter (λ row, currency row ∈ ALLOWED_CURRENCY_CODES) df in
  filter (λ row, impact row ∈ ALLOWED_IMPACT_COLORS) df.

(** Line 106: the rows whose time is not null. *)
Definition dropna (df : list (RawEventRow * option Z)) : list (RawEventRow * Z) :=
  omap (λ rt, match snd rt with Some t => Some (fst rt, t) | None => None end) df.

(** Lines 109 to 124, row by row. *)
Definition normalize (E : Env) (rt : RawEventRow * Z) : result Row :=
  sev ← color_severity (impact (fst rt));
  mret {| raw := fst rt;
          time_ms := snd rt;
          severity_category := fst sev;
          severity_level := snd sev;
          category := infer_category (event (fst rt));
          sentiment_score := polarity_compound E (event (fst rt));
          historical_volatility := 0.0%float;
          future_event := bool_decide (now_ms E < snd rt) |}.

(** Lines 162 and 170 *)
Definition score (df : list Row) (row : Row) : result ScoredRow :=
  d ← domain_factor df row;
  mret {| base := row; domain_f := d; sentiment_f := sentiment_factor (sentiment_score row) |}.

(** Lines 200 to 217 *)
Definition project (row : ScoredRow) (sev : option float * float) : EnrichedEventRecord :=
  {| out_time_ms := time_ms (base row);
     out_severity_level := severity_level (base row);
     out_severity_category := severity_category (base row);
     out_headline := event (raw (base row));
     out_category := category (base row);
     out_sentiment_score := sentiment_score (base row);
     out_historical_volatility := historical_volatility (base row);
     out_future_event := future_event (base row);
     final_severity := fst sev;
     anticipated_severity := snd sev |}.

(** [df[label] = df.apply(f, axis=1)]: the column assigned. On a frame
    without rows [apply] returns a frame, not a column, and the assignment
    raises [ValueError]. *)
Definition apply_rows {A B} (f : A → result B) (df : list A) : result (list B) :=
  match df with
  | [] => Raise ValueError
  | _ :: _ => mapM f df
  end.

(** Lines 101 to 170: the frame the loop iterates over. Nothing here talks
    to the news service. *)
Definition scored_frame (E : Env) (df : list RawEventRow) : result (list ScoredRow) :=
  let df := filter_allowed df in
  times ← apply_rows (λ row, convert_to_utc_ms (date_label row) (time_label row)) df;
  let df := dropna (zip df times) in
  df ← mapM (normalize E) df;
  apply_rows (score df) df.

Definition enrich_data (E : Env) (df : list RawEventRow) : prog (list EnrichedEventRecord) :=
  df ← lift (scored_frame E df);
  sevs ← severity_loop E df;
  mret (zip_with project df sevs).

(** *** The scraping loop of the main block *)

(** What the browser driver reports of a [td] element: its [class]
    attribute, its text, and the [class] attributes of the [span] elements
    inside it. An attribute that is not set is [None]. *)
Record td := {
  td_class : option string;
  td_text : string;
  td_spans : list (option string) }.

(** Lines 256 to 259: [color] when the loop over the spans is over. *)
Fixpoint impact_color_from (color : option string) (impact_elements : list (option string))
    : option string :=
  match impact_elements with
  | [] => color
  | impact_class :: impact_elements' =>
      impact_color_from (impact_class ≫= λ c, ICON_COLOR_MAP !! c) impact_elements'
  end.

(** Lines 250 to 263: what one [td] element appends to [row_data]. *)
Definition cell_data (element : td) : list string :=
  match td_class element with
  | Some class_name =>
      if bool_decide (is_Some (ALLOWED_ELEMENT_TYPES !! class_name)) then
        if negb (String.eqb (td_text element) EmptyString) then [td_text element]
        else if str_in "calendar__impact" class_name then
          match impact_color_from None (td_spans element) with
          | Some color => if negb (String.eqb color EmptyString) then [color] else ["impact"]
          | None => ["impact"]
          end
        else []
      else []
  | None => []
  end.

(** Lines 248 to 263: [row_data] for one [tr] element. *)
Definition row_data (row : list td) : list string :=
  concat (map cell_data row).

(** Lines 247 to 265: [data] for the rows of the table. *)
Definition scrape_table (table : list (list td)) : list (list string) :=
  filter (λ row_data, row_data ≠ []) (map row_data table).

End Scraper.
Import Scraper.

(** ** Vocabulary of the statements *)

(** [needle] occurs in [hay] as a contiguous substring. *)
Definition substring_of (needle hay : string) : Prop :=
  ∃ before after, hay = before +:+ needle +:+ after.

(** [keyword] occurs in [text] when letter case is ignored. *)
Definition occurs_in (keyword text : string) : Prop :=
  substring_of (lower keyword) (lower text).

Definition has_keyword (text : string) (keywords : list string) : bool :=
  existsb (λ kw, str_in (lower kw) (lower text)) keywords.

(** [factor *= m], done when [b] holds. *)
Definition times_if (b : bool) (m factor : float) : float :=
  if b then (factor * m)%float else factor.

(** The three category tests of [domain_factor], applied to 1.0 in the order
    of the code. *)
Definition category_factor (category : string) : float :=
  times_if (String.eqb category "NFP") 1.2
    (times_if (String.eqb category "Inflation") 1.15
       (times_if (bool_decide (category ∈ ["RateDecision"; "MonetaryPolicy"])) 1.2 1.0%float)).

Definition usd_in_batch (df : list Row) : bool :=
  bool_decide ("USD" ∈ (currency ∘ raw <$> df)).

(** The [domain_factor] column of the frame the loop iterates over. *)
Definition domain_factor_column (frame : result (list ScoredRow)) : result (list float) :=
  match frame with
  | Ok rows => Ok (map domain_f rows)
  | Raise e => Raise e
  end.

(** The composite severity formula, multiplied from left to right as the
    code writes it. *)
Definition composite (severity_level vol_factor coverage_factor sentiment_f domain_f : float) : float :=
  (severity_level * vol_factor * coverage_factor * sentiment_f * domain_f)%float.

Definition volatility_factor (E : Env) (historical_volatility : float) : float :=
  (1 + log1p E historical_volatility)%float.

(** The factors of one row of the loop, as the loop body names them. *)
Definition official_sev (row : ScoredRow) : float :=
  float_of_Z (severity_level (base row)).

Definition vol_factor (E : Env) (row : ScoredRow) : float :=
  volatility_factor E (historical_volatility (base row)).

(** The rows of a batch for which the loop consults the news service. *)
Definition past_rows (rows : list ScoredRow) : list ScoredRow :=
  filter (λ row, future_event (base row) = false) rows.

(** The request the loop sends for a row. *)
Definition row_request (E : Env) (row : ScoredRow) : request :=
  coverage_request E (category (base row)) (time_ms (base row)).

(** The ways a coverage lookup fails for which the adapter answers 0. *)
Inductive lookup_failed : http_outcome → Prop :=
| failed_request (err : request_error) :
    lookup_failed (RequestFailed err)
| failed_status (status_code : Z) (json : option pyval) :
    400 ≤ status_code < 600 → lookup_failed (Response status_code json)
| failed_body (status_code : Z) :
    lookup_failed (Response status_code None)
| failed_not_object (status_code : Z) (v : pyval) :
    (∀ data, v ≠ PDict data) → lookup_failed (Response status_code (Some v))
| failed_absent (status_code : Z) (data : list (string * pyval)) :
    (∀ v, ("totalResults", v) ∉ data) →
    lookup_failed (Response status_code (Some (PDict data))).

(** What is known of a row when the loop starts; [frame] is the frame the
    closure [domain_factor] sees. *)
Record row_invariant (E : Env) (df : list RawEventRow) (frame : list Row) (row : ScoredRow) : Prop := {
  inv_allowed : raw (base row) ∈ filter_allowed df;
  inv_time :
    convert_to_utc_ms (date_label (raw (base row))) (time_label (raw (base row)))
    = Ok (Some (time_ms (base row)));
  inv_severity :
    COLOR_SEVERITY_MAP !! impact (raw (base row))
    = Some (severity_category (base row), severity_level (base row));
  inv_category : category (base row) = infer_category (event (raw (base row)));
  inv_sentiment : sentiment_score (base row) = polarity_compound E (event (raw (base row)));
  inv_volatility : historical_volatility (base row) = 0.0%float;
  inv_future : future_event (base row) = bool_decide (now_ms E < time_ms (base row));
  inv_domain : domain_factor frame (base row) = Ok (domain_f row);
  inv_sentiment_f : sentiment_f row = sentiment_factor (sentiment_score (base row)) }.

(** The number 1.0 in the specification of binary64. *)
Definition SF_one : spec_float := S754_finite false 4503599627370496 (-52).

(** ** Worked examples *)

(** An environment: the clock stands at 2027-01-15, after every event of
    2024; the service finds three articles for every request; the sentiment
    scorer is neutral; [log1p] is given by its value at 0.0, the only argument
    [enrich_data] passes to it. *)
Definition sample_env : Env :=
  {| NEWSAPI_KEY := "YOUR_NEWSAPI_KEY_HERE";
     now_ms := 1800000000000;
     polarity_compound := λ _, 0%float;
     log1p := λ x, x;
     http_get := λ _ _,
       Response 200 (Some (PDict [("status", PStr "ok"); ("totalResults", PInt 3)])) |}.

(** An environment that differs by the reading of the clock. *)
Definition with_clock (E : Env) (now : Z) : Env :=
  {| NEWSAPI_KEY := NEWSAPI_KEY E; now_ms := now;
     polarity_compound := polarity_compound E; log1p := log1p E;
     http_get := http_get E |}.

(** An environment that differs by the answers of the news service. *)
Definition with_service (E : Env) (service : list request → request → http_outcome) : Env :=
  {| NEWSAPI_KEY := NEWSAPI_KEY E; now_ms := now_ms E;
     polarity_compound := polarity_compound E; log1p := log1p E;
     http_get := service |}.

(** A service that answers 200 with a JSON object whose "totalResults" is
    null. *)
Definition null_count_service : list request → request → http_outcome :=
  λ _ _, Response 200 (Some (PDict [("status", PStr "ok"); ("totalResults", PNone)])).

(** The row of the end-to-end scenario, as the CSV file written by
    [reformat_scraped_data] holds it. *)
Definition fomc_row : RawEventRow :=
  {| date_label := "Wed Oct 2"; time_label := "8:30am"; currency := "USD";
     impact := "red"; event := "Fed FOMC Rate Decision"; other := [] |}.

(** A calendar entry without a clock time, as the scraped calendar has them
    for holidays. *)
Definition all_day_row : RawEventRow :=
  {| date_label := "Wed Oct 2"; time_label := "All Day"; currency := "USD";
     impact := "gray"; event := "Bank Holiday"; other := [] |}.

(** A row whose date label lacks the weekday. *)
Definition short_date_row : RawEventRow :=
  {| date_label := "Oct 2"; time_label := "10:00am"; currency := "USD";
     impact := "orange"; event := "ISM Services PMI"; other := [] |}.

(** A row whose headline names geopolitical and commodity keywords. *)
Definition sanctions_row : RawEventRow :=
  {| date_label := "Thu Oct 3"; time_label := "2:00pm"; currency := "EUR";
     impact := "orange"; event := "New Sanctions Hit Gold Mining Output"; other := [] |}.

(** A row in a frame that also has a column labelled [headline]. *)
Definition with_headline (row : RawEventRow) (headline : string) : RawEventRow :=
  {| date_label := date_label row; time_label := time_label row;
     currency := currency row; impact := impact row; event := event row;
     other := [("headline", PStr headline)] |}.

(** The FOMC row when the loop reaches it, in a frame with a [headline]
    column and with the clock of [sample_env]. *)
Definition fomc_scored : ScoredRow :=
  {| base :=
       {| raw := with_headline fomc_row "Fed FOMC Rate Decision";
          time_ms := 1727857800000;
          severity_category := "High";
          severity_level := 3;
          category := "MonetaryPolicy";
          sentiment_score := 0%float;
          historical_volatility := 0%float;
          future_event := false |};
     domain_f := 1.3200000000000001%float;
     sentiment_f := 1%float |}.

(** What [enrich_data] returns for it, up to the two fields that depend on
    the clock and on the news service. *)
Definition fomc_record (future : bool) (final : option float) : EnrichedEventRecord :=
  {| out_time_ms := 1727857800000;
     out_severity_level := 3;
     out_severity_category := "High";
     out_headline := "Fed FOMC Rate Decision";
     out_category := "MonetaryPolicy";
     out_sentiment_score := 0%float;
     out_historical_volatility := 0%float;
     out_future_event := future;
     final_severity := final;
     anticipated_severity := 3.96%float |}.

(** ** Vocabulary of the further properties *)

(** The scraped rows that give a structured row: those of two cells, of
    three, or of more than five. *)
Definition is_event_row (row : list string) : bool :=
  ((1 <? length row) && negb (length row =? 4) && negb (length row =? 5))%nat.

(** The scraped rows that set the date, and those that set the time. *)
Definition is_date_row (row : list string) : bool :=
  ((length row =? 1) || (length row =? 5))%nat.

Definition is_time_row (row : list string) : bool :=
  (length row =? 4)%nat.

(** The first cell of the last marker row of [data]; [default] when [data]
    has no marker row. *)
Definition latest (is_marker : list string → bool) (default : string)
    (data : list (list string)) : string :=
  match last (filter (λ row, is_marker row = true) data) with
  | Some row => first_cell row
  | None => default
  end.

(** The values that Python orders with an [int]. *)
Definition is_number (v : pyval) : bool :=
  match v with
  | PBool _ | PInt _ | PFloat _ => true
  | _ => false
  end.

(** The row of [sanctions_row] when line 162 reaches it, in a frame with a
    [headline] column. *)
Definition sanctions_base : Row :=
  {| raw := with_headline sanctions_row "New Sanctions Hit Gold Mining Output";
     time_ms := 1727964000000;
     severity_category := "Medium";
     severity_level := 2;
     category := "Other";
     sentiment_score := 0%float;
     historical_volatility := 0%float;
     future_event := false |}.

(** A row whose [headline] cell is empty, as a CSV reader leaves a missing
    value: a NaN. *)
Definition nan_headline_base : Row :=
  {| raw :=
       {| date_label := "Thu Oct 3"; time_label := "2:00pm"; currency := "EUR";
          impact := "orange"; event := "New Sanctions Hit Gold Mining Output";
          other := [("headline", PFloat PrimFloat.nan)] |};
     time_ms := 1727964000000;
     severity_category := "Medium";
     severity_level := 2;
     category := "Other";
     sentiment_score := 0%float;
     historical_volatility := 0%float;
     future_event := false |}.

(** The largest domain factor: the product 1.0 * 1.2 * 1.25 * 1.1 * 1.1 in
    binary64, multiplied from left to right. *)
Definition DOMAIN_FACTOR_MAX : float := 1.8150000000000004%float.

(** A string without white space, as the tokens of [str.split] are. *)
Fixpoint no_space (s : string) : bool :=
  match s with
  | EmptyString => true
  | String c s' => negb (isspace c) && no_space s'
  end.

(** The first and the last minute of the year 2024, in milliseconds of the
    epoch. *)
Definition YEAR_2024_FIRST_MS : Z := 1704067200000.
Definition YEAR_2024_LAST_MS : Z := 1735689540000.

(** ** Vocabulary of the severity loop *)


Definition anticipated_of (E : Env) (row : ScoredRow) : float :=
  (official_sev row * vol_factor E row * sentiment_f row * domain_f row)%float.

(** The cell of an input row in the column labelled [headline], if the frame
    has one. *)
Definition headline_cell (row : RawEventRow) : option pyval :=
  (λ found, found.2.2) <$> list_find (λ kv, kv.1 = "headline") (other row).

(** The rows of the input that the loop iterates over: allowed currency and
    colour, and a date label of at least three tokens. *)
Definition kept_rows (df : list RawEventRow) : list RawEventRow :=
  filter (λ row, (3 ≤ length (split (date_label row)))%nat) (filter_allowed df).

(** A frame on which lines 101 to 170 raise nothing: every allowed row gets
    a time or the null marker, some row is kept, and the kept rows have a
    text in a column labelled [headline]. *)
Record reaches_loop (df : list RawEventRow) : Prop := {
  frame_times :
    Forall (λ row, ∃ t, convert_to_utc_ms (date_label row) (time_label row) = Ok t)
      (filter_allowed df);
  frame_kept : kept_rows df ≠ [];
  frame_headline : Forall (λ row, ∃ h, headline_cell row = Some (PStr h)) (kept_rows df) }.


(** * Properties *)

(** ** The Python fragment *)

Lemma prefix_app (s t : string) : String.prefix s (s +:+ t) = true.
Proof.
  induction s as [|c s IH]; simpl; [by destruct t|].
  destruct (ascii_dec c c); [exact IH|done].
Qed.

Lemma prefix_inv (s h : string) : String.prefix s h = true → ∃ t, h = s +:+ t.
Proof.
  revert h. induction s as [|c s IH]; intros h Hp.
  - by exists h.
  - destruct h as [|c' h]; [done|]. simpl in Hp.
    destruct (ascii_dec c c') as [Hc|]; [subst c'|done].
    destruct (IH _ Hp) as [t ->]. by exists t.
Qed.

Lemma str_in_unfold (needle hay : string) :
  str_in needle hay =
  String.prefix needle hay ||
  match hay with EmptyString => false | String _ hay' => str_in needle hay' end.
Proof. by destruct hay. Qed.

Lemma str_in_substring (needle hay : string) :
  str_in needle hay = true ↔ substring_of needle hay.
Proof.
  split.
  - induction hay as [|c hay IH]; rewrite str_in_unfold; intros H.
    + rewrite orb_false_r in H. destruct (prefix_inv _ _ H) as [t Ht].
      by exists EmptyString, t.
    + apply orb_prop in H as [H|H].
      * destruct (prefix_inv _ _ H) as [t Ht]. by exists EmptyString, t.
      * destruct (IH H) as (a & b & ->). by exists (String c a), b.
  - intros (a & b & ->). induction a as [|c a IH].
    + change (EmptyString +:+ needle +:+ b) with (needle +:+ b).
      by rewrite str_in_unfold, prefix_app.
    + change (String c a +:+ needle +:+ b) with (String c (a +:+ needle +:+ b)).
      rewrite str_in_unfold, IH. apply orb_true_r.
Qed.

Lemma str_in_false (needle hay : string) :
  str_in needle hay = false ↔ ¬ substring_of needle hay.
Proof.
  rewrite <- str_in_substring. by destruct (str_in needle hay).
Qed.

Lemma unique_from_elem (seen l : list string) (x : string) :
  x ∈ unique_from seen l ↔ x ∈ l ∧ x ∉ seen.
Proof.
  revert seen. induction l as [|y l IH]; intros seen; simpl.
  - rewrite elem_of_nil. naive_solver.
  - case_bool_decide as Hy.
    + rewrite IH, elem_of_cons. naive_solver.
    + rewrite !elem_of_cons, IH, not_elem_of_cons.
      destruct (decide (x = y)); naive_solver.
Qed.

Lemma unique_elem (l : list string) (x : string) : x ∈ unique l ↔ x ∈ l.
Proof.
  unfold unique. rewrite unique_from_elem, elem_of_nil. naive_solver.
Qed.

(** Multiplying a binary64 number by 1.0 returns it unchanged; the proof goes
    through the specification of the primitive multiplication. *)
Lemma iter_pos_nat {A} (f : A → A) (p : positive) (x : A) :
  SpecFloat.iter_pos f p x = Nat.iter (Pos.to_nat p) f x.
Proof.
  revert x. induction p as [p IH|p IH|]; intros x; cbn [SpecFloat.iter_pos].
  - rewrite !IH, Pos2Nat.inj_xI.
    replace (S (2 * Pos.to_nat p)) with (Pos.to_nat p + S (Pos.to_nat p))%nat by lia.
    by rewrite Nat.iter_add, Nat.iter_succ_r.
  - rewrite !IH, Pos2Nat.inj_xO.
    replace (2 * Pos.to_nat p)%nat with (Pos.to_nat p + Pos.to_nat p)%nat by lia.
    by rewrite Nat.iter_add.
  - done.
Qed.

Lemma iter_shr_1_xO (n : nat) (p : positive) :
  Nat.iter n shr_1 {| shr_m := Zpos (Nat.iter n xO p); shr_r := false; shr_s := false |}
  = {| shr_m := Zpos p; shr_r := false; shr_s := false |}.
Proof.
  induction n as [|n IH]; [done|].
  rewrite Nat.iter_succ_r. exact IH.
Qed.

Lemma digits2_iter_xO (n : nat) (p : positive) :
  Zpos (digits2_pos (Nat.iter n xO p)) = Zpos (digits2_pos p) + Z.of_nat n.
Proof.
  induction n as [|n IH]; [change (Nat.iter 0 xO p) with p; lia|].
  rewrite Nat.iter_succ. cbn [digits2_pos]. rewrite Pos2Z.inj_succ, IH. lia.
Qed.

Lemma Prim2SF_one : Prim2SF 1%float = SF_one.
Proof. vm_compute. reflexivity. Qed.

Lemma SF64mul_one_r (s : spec_float) :
  FloatAxioms.valid_binary s = true → SF64mul s SF_one = s.
Proof.
  intros Hv.
  destruct s as [sx|sx| |sx mx ex]; unfold SF64mul, SFmul, SF_one.
  - by rewrite xorb_false_r.
  - by rewrite xorb_false_r.
  - done.
  - rewrite xorb_false_r.
    unfold SpecFloat.valid_binary, bounded, canonical_mantissa in Hv.
    apply andb_prop in Hv as [Hc Hb]. apply Z.eqb_eq in Hc.
    replace (mx * 4503599627370496)%positive with (Nat.iter 52 xO mx)
      by (by rewrite Pos.mul_comm).
    unfold binary_round_aux, shr_fexp.
    change (Zdigits2 (Z.pos (Nat.iter 52 xO mx)))
      with (Z.pos (digits2_pos (Nat.iter 52 xO mx))).
    rewrite (digits2_iter_xO 52 mx).
    replace (Z.pos (digits2_pos mx) + Z.of_nat 52 + (ex + -52))
      with (Z.pos (digits2_pos mx) + ex) by lia.
    rewrite Hc.
    replace (ex - (ex + -52)) with 52 by lia.
    unfold shr at 1. rewrite iter_pos_nat.
    change (Pos.to_nat 52) with 52%nat.
    change (shr_record_of_loc (Z.pos (Nat.iter 52 xO mx)) loc_Exact)
      with {| shr_m := Z.pos (Nat.iter 52 xO mx); shr_r := false; shr_s := false |}.
    rewrite (iter_shr_1_xO 52 mx).
    cbn [loc_of_shr_record shr_m round_nearest_even].
    replace (ex + -52 + 52) with ex by lia.
    cbn [Zdigits2]. rewrite Hc, Z.sub_diag.
    cbn [shr shr_record_of_loc shr_m].
    by rewrite Hb.
Qed.

Lemma float_mul_one_r (x : float) : (x * 1)%float = x.
Proof.
  apply Prim2SF_inj. rewrite mul_spec, Prim2SF_one.
  apply SF64mul_one_r, Prim2SF_valid.
Qed.

(** ** Classifier *)

Lemma infer_category_from_first_match (items : list (string * string)) (headline : string) :
  (∃ before k v after,
      items = before ++ (k, v) :: after ∧
      Forall (λ kv, ¬ occurs_in kv.1 headline) before ∧
      occurs_in k headline ∧
      infer_category_from items headline = v)
  ∨ (Forall (λ kv, ¬ occurs_in kv.1 headline) items ∧
     infer_category_from items headline = "Other").
Proof.
  induction items as [|[k v] items IH]; [by right|].
  cbn [infer_category_from].
  destruct (str_in (lower k) (lower headline)) eqn:Hk.
  - left. exists [], k, v, items.
    by rewrite str_in_substring in Hk.
  - apply str_in_false in Hk.
    destruct IH as [(before & k' & v' & after & -> & Hb & Hk' & Hv)|[Hall Hv]].
    + left. exists ((k, v) :: before), k', v', after.
      split; [done|]. split; [by constructor|]. done.
    + right. split; [by constructor|done].
Qed.

(** C6: [infer_category] scans the keyword table in the order Non-Farm
    Employment, GDP, Interest Rate Decision, CPI, FOMC and returns the
    category of the first keyword that occurs in the headline, letter case
    ignored, or "Other" when none does; so a headline with both "CPI" and
    "GDP" gets the category of GDP, which comes first of the two (unless the
    still earlier "Non-Farm Employment" occurs as well). *)
Theorem infer_category_first_match :
  EVENT_CATEGORIES.*1
    = ["Non-Farm Employment"; "GDP"; "Interest Rate Decision"; "CPI"; "FOMC"] ∧
  (∀ headline,
      (∃ before k v after,
          EVENT_CATEGORIES = before ++ (k, v) :: after ∧
          Forall (λ kv, ¬ occurs_in kv.1 headline) before ∧
          occurs_in k headline ∧
          infer_category headline = v)
      ∨ (Forall (λ kv, ¬ occurs_in kv.1 headline) EVENT_CATEGORIES ∧
         infer_category headline = "Other")) ∧
  (∀ headline,
      occurs_in "CPI" headline → occurs_in "GDP" headline →
      infer_category headline =
        if str_in (lower "Non-Farm Employment") (lower headline) then "NFP" else "GDP") ∧
  infer_category "Core CPI and GDP figures" = "GDP" ∧
  infer_category "GDP deflator and CPI" = "GDP" ∧
  infer_category "Retail Sales m/m" = "Other".
Proof.
  split; [done|]. split; [|split; [|done]].
  - intros headline. apply infer_category_from_first_match.
  - intros headline _ Hgdp. apply str_in_substring in Hgdp.
    unfold infer_category, EVENT_CATEGORIES. cbn [infer_category_from].
    destruct (str_in (lower "Non-Farm Employment") (lower headline)); [done|].
    by rewrite Hgdp.
Qed.

Lemma infer_category_first_match_witness :
  occurs_in "CPI" "Core CPI and GDP figures" ∧
  occurs_in "GDP" "Core CPI and GDP figures" ∧
  infer_category "Core CPI and GDP figures" = "GDP".
Proof.
  assert (Hcpi : occurs_in "CPI" "Core CPI and GDP figures")
    by (by exists "core ", " and gdp figures").
  assert (Hgdp : occurs_in "GDP" "Core CPI and GDP figures")
    by (by exists "core cpi and ", " figures").
  split; [exact Hcpi|]. split; [exact Hgdp|].
  destruct infer_category_first_match as (_ & _ & H & _).
  exact (H "Core CPI and GDP figures" Hcpi Hgdp).
Defined.

(** ** Factor calculators *)

(** C8: [sentiment_factor s] is [1 + |s| * 0.1] when [s] is strictly below
    -0.05 and 1.0 otherwise; the bound itself gives 1.0. *)
Theorem sentiment_factor_step :
  (∀ s, PrimFloat.ltb s (-0.05)%float = true →
        sentiment_factor s = (1 + PrimFloat.abs s * 0.1)%float) ∧
  (∀ s, PrimFloat.ltb s (-0.05)%float = false → sentiment_factor s = 1.0%float) ∧
  sentiment_factor (-0.05)%float = 1.0%float ∧
  sentiment_factor (-0.5)%float = 1.05%float ∧
  sentiment_factor 0.3%float = 1.0%float.
Proof.
  split; [|split].
  - intros s Hs. unfold sentiment_factor. by rewrite Hs.
  - intros s Hs. unfold sentiment_factor. by rewrite Hs.
  - repeat split; vm_compute; reflexivity.
Qed.

Lemma sentiment_factor_step_witness :
  PrimFloat.ltb (-0.75)%float (-0.05)%float = true ∧
  sentiment_factor (-0.75)%float = (1 + PrimFloat.abs (-0.75) * 0.1)%float ∧
  PrimFloat.ltb 0.25%float (-0.05)%float = false ∧
  sentiment_factor 0.25%float = 1.0%float.
Proof.
  destruct sentiment_factor_step as (Hlow & Hhigh & _).
  split; [reflexivity|]. split; [apply Hlow; reflexivity|].
  split; [reflexivity|]. apply Hhigh; reflexivity.
Defined.

(** C9: on a count [c >= 0], [compute_coverage_factor] is 1.0 for [c = 0],
    1.1 for [1 <= c <= 5] and 1.2 for [c > 5]. *)
Theorem compute_coverage_factor_tiers (c : Z) :
  0 ≤ c →
  compute_coverage_factor (PInt c)
    = Ok (if c =? 0 then 1.0%float else if c <=? 5 then 1.1%float else 1.2%float)
  ∧ compute_coverage_factor (PInt 0) = Ok 1.0%float
  ∧ compute_coverage_factor (PInt 3) = Ok 1.1%float
  ∧ compute_coverage_factor (PInt 5) = Ok 1.1%float
  ∧ compute_coverage_factor (PInt 6) = Ok 1.2%float.
Proof.
  intros Hc. split; [|done].
  unfold compute_coverage_factor. cbn [eq_zero between_1_and_5].
  destruct (c =? 0) eqn:H0; [done|].
  apply Z.eqb_neq in H0. cbn.
  replace (1 <=? c) with true by (symmetry; apply Z.leb_le; lia).
  by destruct (c <=? 5).
Qed.

Lemma compute_coverage_factor_tiers_witness :
  0 ≤ 4 ∧ compute_coverage_factor (PInt 4) = Ok 1.1%float.
Proof.
  split; [lia|]. apply (compute_coverage_factor_tiers 4). lia.
Defined.

(** ** Lookup tables *)

Lemma allowed_color_cases (c : string) :
  c ∈ ALLOWED_IMPACT_COLORS → c = "red" ∨ c = "orange" ∨ c = "yellow" ∨ c = "gray".
Proof.
  unfold ALLOWED_IMPACT_COLORS. rewrite !elem_of_cons, elem_of_nil. tauto.
Qed.

Lemma color_severity_allowed (c : string) :
  c ∈ ALLOWED_IMPACT_COLORS →
  ∃ v, COLOR_SEVERITY_MAP !! c = Some v ∧ color_severity c = Ok v.
Proof.
  intros Hc. apply allowed_color_cases in Hc as [-> | [-> | [-> | ->]]];
    eexists; split; vm_compute; reflexivity.
Qed.

Lemma filter_allowed_elem (df : list RawEventRow) (row : RawEventRow) :
  row ∈ filter_allowed df ↔
  row ∈ df ∧ currency row ∈ ALLOWED_CURRENCY_CODES ∧ impact row ∈ ALLOWED_IMPACT_COLORS.
Proof.
  unfold filter_allowed. rewrite !list_elem_of_filter. tauto.
Qed.

(** ** Severity composer *)

Lemma composite_no_coverage (sev vol sent dom : float) :
  composite sev vol 1.0 sent dom = (sev * vol * sent * dom)%float.
Proof. unfold composite. by rewrite float_mul_one_r. Qed.

Lemma window_datetime_representable (event_time_ms : Z) :
  window_representable event_time_ms = true → datetime_representable event_time_ms = true.
Proof.
  unfold window_representable, datetime_representable, DAY_MS.
  intros [H1 H2]%andb_true_iff. apply Z.leb_le in H1, H2.
  apply andb_true_iff. split; apply Z.leb_le; lia.
Qed.

Lemma fetch_news_coverage_window (E : Env) (keyword : string) (event_time_ms : Z)
    (trace : list request) :
  window_representable event_time_ms = true →
  fetch_news_coverage E keyword event_time_ms trace
  = (Ok (coverage_count_of (http_get E trace (coverage_request E keyword event_time_ms))),
     trace ++ [coverage_request E keyword event_time_ms]).
Proof.
  intros Hw. unfold fetch_news_coverage.
  by rewrite (window_datetime_representable _ Hw), Hw.
Qed.

Lemma fetch_news_coverage_no_window (E : Env) (keyword : string) (event_time_ms : Z)
    (trace : list request) :
  window_representable event_time_ms = false →
  ∃ e, (e = ValueError ∨ e = OverflowError) ∧
       fetch_news_coverage E keyword event_time_ms trace = (Raise e, trace).
Proof.
  intros Hw. unfold fetch_news_coverage. rewrite Hw.
  destruct (datetime_representable event_time_ms); cbn [negb]; eauto.
Qed.

Lemma severity_row_future (E : Env) (row : ScoredRow) (trace : list request) :
  future_event (base row) = true →
  severity_row E row trace
  = (Ok (None, composite (official_sev row) (vol_factor E row) 1.0 (sentiment_f row) (domain_f row)),
     trace).
Proof. intros Hf. unfold severity_row. by rewrite Hf. Qed.

Lemma severity_row_past (E : Env) (row : ScoredRow) (trace : list request) :
  future_event (base row) = false →
  window_representable (time_ms (base row)) = true →
  severity_row E row trace
  = (cf ← compute_coverage_factor (coverage_count_of (http_get E trace (row_request E row)));
     mret (Some (composite (official_sev row) (vol_factor E row) cf (sentiment_f row) (domain_f row)),
           composite (official_sev row) (vol_factor E row) 1.0 (sentiment_f row) (domain_f row)),
     trace ++ [row_request E row]).
Proof.
  intros Hf Hw. unfold severity_row. rewrite Hf.
  unfold mbind, prog_bind. rewrite fetch_news_coverage_window by done.
  unfold lift. fold (row_request E row).
  by destruct (compute_coverage_factor _).
Qed.

Lemma severity_row_no_window (E : Env) (row : ScoredRow) (trace : list request) :
  future_event (base row) = false →
  window_representable (time_ms (base row)) = false →
  ∃ e, (e = ValueError ∨ e = OverflowError) ∧ severity_row E row trace = (Raise e, trace).
Proof.
  intros Hf Hw.
  destruct (fetch_news_coverage_no_window E (category (base row)) (time_ms (base row))
              trace Hw) as (e & He & Hfetch).
  exists e. split; [done|]. unfold severity_row. rewrite Hf.
  unfold mbind, prog_bind. by rewrite Hfetch.
Qed.

(** A loop that returns has returned from each of its iterations. *)
Lemma severity_loop_ok_inv (E : Env) (rows : list ScoredRow) (sevs : list (option float * float))
    (trace trace' : list request) :
  severity_loop E rows trace = (Ok sevs, trace') →
  Forall2 (λ row sev, ∃ tr tr', severity_row E row tr = (Ok sev, tr')) rows sevs.
Proof.
  revert sevs trace trace'. induction rows as [|row rows IH]; intros sevs trace trace' H.
  - cbn in H. injection H as <- _. constructor.
  - cbn [severity_loop] in H. unfold mbind, prog_bind in H.
    destruct (severity_row E row trace) as [[sev|e] tr1] eqn:Hrow; [|done].
    fold (@mbind prog _) in H.
    destruct (severity_loop E rows tr1) as [[sevs'|e] tr2] eqn:Hloop; [|done].
    cbn in H. injection H as <- _.
    constructor; [by exists trace, tr1|]. exact (IH _ _ _ Hloop).
Qed.

Lemma severity_row_ok_trace (E : Env) (row : ScoredRow) (sev : option float * float)
    (trace trace' : list request) :
  severity_row E row trace = (Ok sev, trace') →
  trace' = trace ++ (row_request E <$> past_rows [row]).
Proof.
  unfold past_rows. rewrite filter_cons, filter_nil.
  destruct (future_event (base row)) eqn:Hf.
  - rewrite severity_row_future by done. intros [= _ <-].
    rewrite decide_False by done. by rewrite app_nil_r.
  - rewrite decide_True by done.
    destruct (window_representable (time_ms (base row))) eqn:Hw.
    + rewrite severity_row_past by done. by intros [= _ <-].
    + destruct (severity_row_no_window E row trace Hf Hw) as (e & _ & ->). done.
Qed.

(** What the loop has sent when it returns: the requests of the past rows,
    in row order. *)
Lemma severity_loop_trace (E : Env) (rows : list ScoredRow) (sevs : list (option float * float))
    (trace trace' : list request) :
  severity_loop E rows trace = (Ok sevs, trace') →
  trace' = trace ++ (row_request E <$> past_rows rows).
Proof.
  revert sevs trace trace'.
  induction rows as [|row rows IH]; intros sevs trace trace' H.
  - cbn in H. injection H as _ <-. by rewrite app_nil_r.
  - cbn [severity_loop] in H. unfold mbind, prog_bind in H.
    destruct (severity_row E row trace) as [[sev|e] tr1] eqn:Hrow; [|done].
    fold (@mbind prog _) in H.
    destruct (severity_loop E rows tr1) as [[sevs'|e] tr2] eqn:Hloop; [|done].
    cbn in H. injection H as _ <-.
    rewrite (IH _ _ _ Hloop), (severity_row_ok_trace _ _ _ _ _ Hrow).
    change (row :: rows) with ([row] ++ rows).
    unfold past_rows. by rewrite filter_app, fmap_app, app_assoc.
Qed.

(** ** The orchestrator *)

Lemma mapM_Ok_inv {A B} (f : A → result B) (l : list A) (k : list B) :
  mapM f l = Ok k → Forall2 (λ x y, f x = Ok y) l k.
Proof.
  revert k. induction l as [|x l IH]; intros k H.
  - cbn in H. injection H as <-. constructor.
  - cbn in H. destruct (f x) as [y|e] eqn:Hx; [|done]. cbn in H.
    destruct (mapM f l) as [k'|e] eqn:Hl; [|done]. cbn in H.
    injection H as <-. constructor; [done|by apply IH].
Qed.

Lemma mapM_Raise_inv {A B} (f : A → result B) (l : list A) (e : exn) :
  mapM f l = Raise e → ∃ x, x ∈ l ∧ f x = Raise e.
Proof.
  induction l as [|x l IH]; intros H; [done|].
  cbn in H. destruct (f x) as [y|e'] eqn:Hx.
  - cbn in H. destruct (mapM f l) as [k'|e'] eqn:Hl; [done|].
    cbn in H. injection H as ->. destruct IH as (x' & Hin & Hx'); [done|].
    exists x'. split; [by right|done].
  - cbn in H. injection H as ->. exists x. split; [by left|done].
Qed.

Lemma mapM_Raise_head {A B} (f : A → result B) (x : A) (l : list A) (e : exn) :
  f x = Raise e → mapM f (x :: l) = Raise e.
Proof. intros H. cbn. by rewrite H. Qed.

Lemma apply_rows_Ok_inv {A B} (f : A → result B) (df : list A) (k : list B) :
  apply_rows f df = Ok k → df ≠ [] ∧ mapM f df = Ok k.
Proof. by destruct df. Qed.

Lemma apply_rows_Raise_inv {A B} (f : A → result B) (df : list A) (e : exn) :
  apply_rows f df = Raise e → (df = [] ∧ e = ValueError) ∨ (df ≠ [] ∧ mapM f df = Raise e).
Proof.
  destruct df as [|x df]; cbn [apply_rows].
  - intros [= <-]. by left.
  - intros H. by right.
Qed.

Lemma apply_rows_mapM {A B} (f : A → result B) (df : list A) :
  df ≠ [] → apply_rows f df = mapM f df.
Proof. by destruct df. Qed.

Lemma dropna_elem (df : list (RawEventRow * option Z)) (raw : RawEventRow) (t : Z) :
  (raw, t) ∈ dropna df ↔ (raw, Some t) ∈ df.
Proof.
  unfold dropna. rewrite list_elem_of_omap. split.
  - intros ([raw' [t'|]] & Hin & H); cbn in H; [|done]. by injection H as -> ->.
  - intros Hin. by exists (raw, Some t).
Qed.

Lemma Forall2_zip_elem {A B} (P : A → B → Prop) (l : list A) (k : list B) (x : A) (y : B) :
  Forall2 P l k → (x, y) ∈ zip l k → x ∈ l ∧ P x y.
Proof.
  intros HF. induction HF as [|a b l k Hab HF IH]; cbn; intros Hin.
  - by apply elem_of_nil in Hin.
  - apply elem_of_cons in Hin as [[= -> ->]|Hin].
    + split; [by left|done].
    + destruct (IH Hin). split; [by right|done].
Qed.

Lemma Forall2_elem_r {A B} (P : A → B → Prop) (l : list A) (k : list B) (y : B) :
  Forall2 P l k → y ∈ k → ∃ x, x ∈ l ∧ P x y.
Proof.
  intros HF. induction HF as [|a b l k Hab HF IH]; intros Hin.
  - by apply elem_of_nil in Hin.
  - apply elem_of_cons in Hin as [->|Hin].
    + exists a. split; [by left|done].
    + destruct (IH Hin) as (x & Hx & HP). exists x. split; [by right|done].
Qed.

Lemma normalize_inv (E : Env) (rt : RawEventRow * Z) (r : Row) :
  normalize E rt = Ok r →
  raw r = rt.1 ∧ time_ms r = rt.2 ∧
  COLOR_SEVERITY_MAP !! impact rt.1 = Some (severity_category r, severity_level r) ∧
  category r = infer_category (event rt.1) ∧
  sentiment_score r = polarity_compound E (event rt.1) ∧
  historical_volatility r = 0.0%float ∧
  future_event r = bool_decide (now_ms E < rt.2).
Proof.
  unfold normalize, color_severity.
  destruct (COLOR_SEVERITY_MAP !! impact rt.1) as [[cat lvl]|]; [|done].
  cbn. by intros [= <-].
Qed.

(** A frame that reaches the loop has passed every line before it. *)
Lemma scored_frame_Ok_inv (E : Env) (df : list RawEventRow) (rows : list ScoredRow) :
  scored_frame E df = Ok rows →
  ∃ times frame,
    filter_allowed df ≠ [] ∧
    mapM (λ row, convert_to_utc_ms (date_label row) (time_label row)) (filter_allowed df)
    = Ok times ∧
    mapM (normalize E) (dropna (zip (filter_allowed df) times)) = Ok frame ∧
    frame ≠ [] ∧
    mapM (score frame) frame = Ok rows.
Proof.
  unfold scored_frame. intros H.
  destruct (apply_rows _ (filter_allowed df)) as [times|] eqn:Htimes; [|done].
  cbn [mbind result_bind] in H.
  destruct (mapM (normalize E) _) as [frame|] eqn:Hframe; [|done].
  cbn [mbind result_bind] in H.
  apply apply_rows_Ok_inv in Htimes as [Hne Htimes], H as [Hne' H].
  by exists times, frame.
Qed.

Lemma scored_frame_inv (E : Env) (df : list RawEventRow) (rows : list ScoredRow) :
  scored_frame E df = Ok rows →
  Forall (row_invariant E df (base <$> rows)) rows.
Proof.
  intros (times & frame & _ & Htimes & Hframe & _ & H)%scored_frame_Ok_inv.
  apply mapM_Ok_inv in Htimes, Hframe, H.
  assert (Hbase : base <$> rows = frame).
  { clear -H. induction H as [|r row frame' rows' Hr _ IH]; [done|].
    cbn. rewrite IH. f_equal.
    unfold score in Hr. destruct (domain_factor _ r); [|done].
    cbn in Hr. by injection Hr as <-. }
  rewrite Hbase.
  apply Forall_forall. intros row Hrow.
  apply (Forall2_elem_r _ _ _ _ H) in Hrow as (r & Hr & Hscore).
  apply (Forall2_elem_r _ _ _ _ Hframe) in Hr as ([raw t] & Hrt & Hnorm).
  apply dropna_elem in Hrt.
  apply (Forall2_zip_elem _ _ _ _ _ Htimes) in Hrt as [Hallowed Htime].
  apply normalize_inv in Hnorm as (Hraw & Ht & Hsev & Hcat & Hsent & Hvol & Hfut).
  cbn [fst snd] in *.
  unfold score in Hscore.
  destruct (domain_factor frame r) as [d|] eqn:Hd; [|done].
  cbn in Hscore. injection Hscore as <-. cbn [base domain_f sentiment_f].
  split; cbn [base domain_f sentiment_f]; rewrite ?Hraw, ?Ht; done.
Qed.

Lemma enrich_data_ok_inv (E : Env) (df : list RawEventRow) (out : list EnrichedEventRecord)
    (trace trace' : list request) :
  enrich_data E df trace = (Ok out, trace') →
  ∃ rows sevs,
    scored_frame E df = Ok rows ∧
    severity_loop E rows trace = (Ok sevs, trace') ∧
    out = zip_with project rows sevs.
Proof.
  unfold enrich_data, mbind, prog_bind, lift. intros H.
  destruct (scored_frame E df) as [rows|]; [|done].
  destruct (severity_loop E rows trace) as [[sevs|] tr] eqn:Hloop; [|done].
  cbn in H. injection H as <- <-. by exists rows, sevs.
Qed.

(** The record of index [i] of the output comes from the row of index [i]
    of the frame the loop iterates over. *)
Lemma enrich_data_lookup (E : Env) (df : list RawEventRow) (out : list EnrichedEventRecord)
    (trace trace' : list request) (i : nat) (o : EnrichedEventRecord) :
  enrich_data E df trace = (Ok out, trace') →
  out !! i = Some o →
  ∃ rows row sev tr tr',
    scored_frame E df = Ok rows ∧ rows !! i = Some row ∧
    row_invariant E df (base <$> rows) row ∧
    severity_row E row tr = (Ok sev, tr') ∧
    o = project row sev.
Proof.
  intros H Ho. apply enrich_data_ok_inv in H as (rows & sevs & Hrows & Hloop & ->).
  apply lookup_zip_with_Some in Ho as (row & sev & -> & Hrow & Hsev).
  apply severity_loop_ok_inv in Hloop.
  destruct (Forall2_lookup_lr _ _ _ _ _ _ Hloop Hrow Hsev) as (tr & tr' & Hstep).
  exists rows, row, sev, tr, tr'. repeat split; try done.
  all: by apply (Forall_lookup_1 _ _ _ _ (scored_frame_inv _ _ _ Hrows) Hrow).
Qed.

Lemma severity_row_past_ok_inv (E : Env) (row : ScoredRow) (sev : option float * float)
    (trace trace' : list request) :
  future_event (base row) = false →
  severity_row E row trace = (Ok sev, trace') →
  window_representable (time_ms (base row)) = true ∧
  trace' = trace ++ [row_request E row] ∧
  ∃ cf,
    compute_coverage_factor (coverage_count_of (http_get E trace (row_request E row))) = Ok cf ∧
    sev = (Some (composite (official_sev row) (vol_factor E row) cf (sentiment_f row) (domain_f row)),
           composite (official_sev row) (vol_factor E row) 1.0 (sentiment_f row) (domain_f row)).
Proof.
  intros Hf H.
  destruct (window_representable (time_ms (base row))) eqn:Hw.
  - rewrite severity_row_past in H by done.
    destruct (compute_coverage_factor _) as [cf|]; [|done].
    cbn in H. injection H as <- <-. split; [done|]. split; [done|]. by exists cf.
  - destruct (severity_row_no_window E row trace Hf Hw) as (e & _ & He).
    by rewrite He in H.
Qed.

Lemma fomc_scored_frame :
  scored_frame sample_env [with_headline fomc_row "Fed FOMC Rate Decision"] = Ok [fomc_scored].
Proof. vm_compute. reflexivity. Qed.

(** ** Time normalizer *)

Lemma strptime_raises_ValueError (s : string) (e : exn) :
  strptime s = Raise e → e = ValueError.
Proof.
  unfold strptime. destruct (format_regex s) as [|[f rest] ?]; [by intros [= <-]|].
  destruct (negb (String.eqb rest EmptyString)); [by intros [= <-]|].
  destruct (_ && _); [done|by intros [= <-]].
Qed.

Lemma convert_to_utc_ms_few_tokens (date_str time_str : string) :
  convert_to_utc_ms date_str time_str = Ok None ↔ (length (split date_str) < 3)%nat.
Proof.
  unfold convert_to_utc_ms.
  destruct (split date_str) as [|weekday [|month_str [|day_str rest]]]; cbn [length];
    try (split; [lia|done]).
  split; [|lia]. by destruct (strptime _).
Qed.

Lemma convert_to_utc_ms_mismatch (date_str time_str : string) (e : exn) :
  convert_to_utc_ms date_str time_str = Raise e ↔
  ∃ weekday month_str day_str rest,
    split date_str = weekday :: month_str :: day_str :: rest ∧
    strptime (full_str month_str day_str time_str) = Raise ValueError ∧
    e = ValueError.
Proof.
  unfold convert_to_utc_ms. split.
  - destruct (split date_str) as [|weekday [|month_str [|day_str rest]]]; try done.
    destruct (strptime _) as [dt|e'] eqn:Hs; [done|].
    cbn. intros [= <-]. pose proof (strptime_raises_ValueError _ _ Hs) as ->.
    by exists weekday, month_str, day_str, rest.
  - intros (weekday & month_str & day_str & rest & -> & Hs & ->). by rewrite Hs.
Qed.

(** A row whose time does not parse stops the whole run: nothing is returned
    and nothing was asked of the news service. *)
Lemma enrich_data_raises_on_mismatch (E : Env) (df : list RawEventRow) (row : RawEventRow)
    (e : exn) (trace : list request) :
  row ∈ filter_allowed df →
  convert_to_utc_ms (date_label row) (time_label row) = Raise e →
  enrich_data E df trace = (Raise ValueError, trace).
Proof.
  intros Hrow Hconv. unfold enrich_data, mbind, prog_bind, lift, scored_frame.
  assert (Hne : filter_allowed df ≠ []).
  { intros Hnil. rewrite Hnil in Hrow. by apply elem_of_nil in Hrow. }
  rewrite apply_rows_mapM by done.
  destruct (mapM _ (filter_allowed df)) as [times|e'] eqn:Hm.
  - apply mapM_Ok_inv in Hm.
    apply list_elem_of_lookup in Hrow as [i Hi].
    destruct (Forall2_lookup_l _ _ _ _ _ Hm Hi) as (t & _ & Ht). congruence.
  - apply mapM_Raise_inv in Hm as (row' & _ & Hr).
    apply convert_to_utc_ms_mismatch in Hr as (? & ? & ? & ? & _ & _ & ->). done.
Qed.

(** C5, at the failing input: the time label "All Day" does not match the
    pattern; [convert_to_utc_ms] raises [ValueError] where the claim has it
    return the null marker, and [enrich_data] raises with it, so that the row
    is not dropped and the rows that do parse are lost as well. A date label
    of two tokens does give the null marker, and that row alone is dropped. *)
Theorem convert_to_utc_ms_mismatch_raises :
  convert_to_utc_ms "Wed Oct 2" "All Day" = Raise ValueError ∧
  convert_to_utc_ms "Wed Oct 2" "8:30am" = Ok (Some 1727857800000) ∧
  convert_to_utc_ms "Oct 2" "10:00am" = Ok None ∧
  (∀ E trace, enrich_data E [fomc_row; all_day_row] trace = (Raise ValueError, trace)) ∧
  enrich_data sample_env
    [with_headline short_date_row "ISM Services PMI";
     with_headline fomc_row "Fed FOMC Rate Decision"] []
  = (Ok [fomc_record false (Some 4.3560000000000008%float)],
     [row_request sample_env fomc_scored]).
Proof.
  split; [vm_compute; reflexivity|].
  split; [vm_compute; reflexivity|].
  split; [vm_compute; reflexivity|].
  split; [|vm_compute; reflexivity].
  intros E trace. apply (enrich_data_raises_on_mismatch E _ all_day_row ValueError).
  - apply filter_allowed_elem. vm_compute.
    repeat split; repeat constructor.
  - vm_compute; reflexivity.
Qed.

(** ** Domain factor *)

Lemma has_keyword_occurs (text : string) (keywords : list string) :
  has_keyword text keywords = true ↔ ∃ kw, kw ∈ keywords ∧ occurs_in kw text.
Proof.
  unfold has_keyword. rewrite existsb_exists. split.
  - intros (kw & Hin & Hkw). exists kw.
    split; [by apply list_elem_of_In|by apply str_in_substring].
  - intros (kw & Hin & Hkw). exists kw.
    split; [by apply list_elem_of_In|by apply str_in_substring].
Qed.

Lemma usd_in_batch_currency (df : list Row) :
  bool_decide ("USD" ∈ unique (currency ∘ raw <$> df)) = usd_in_batch df.
Proof. unfold usd_in_batch. apply bool_decide_ext, unique_elem. Qed.

Lemma usd_in_batch_row (df : list Row) :
  usd_in_batch df = true ↔ ∃ row, row ∈ df ∧ currency (raw row) = "USD".
Proof.
  unfold usd_in_batch. rewrite bool_decide_eq_true, list_elem_of_fmap.
  split; intros (row & H1 & H2); exists row; by split.
Qed.

(** In a frame that has a [headline] column of strings the factor is the
    product the comment above the closure describes. *)
Lemma domain_factor_with_headline (df : list Row) (row : Row) (headline : string) :
  row_getitem row "headline" = Ok (PStr headline) →
  domain_factor df row
  = Ok (times_if (negb (String.eqb headline EmptyString) && usd_in_batch df) 1.1
          (times_if (has_keyword headline COMMODITY_KEYWORDS) 1.1
             (times_if (has_keyword headline GEOPOLITICAL_KEYWORDS) 1.25
                (category_factor (category row))))).
Proof.
  intros Hh. unfold domain_factor. rewrite Hh. cbn [mbind result_bind contains_keyword].
  by rewrite usd_in_batch_currency.
Qed.

(** The frame read from the CSV file has no [headline] column: the lookup
    raises before any keyword is searched for. *)
Lemma row_getitem_headline (row : Row) :
  row_getitem row "headline"
  = match list_find (λ kv, kv.1 = "headline") (other (raw row)) with
    | Some (_, kv) => Ok kv.2
    | None => Raise (KeyError "headline")
    end.
Proof. reflexivity. Qed.

Lemma domain_factor_KeyError (df : list Row) (row : Row) :
  (∀ v, ("headline", v) ∉ other (raw row)) →
  domain_factor df row = Raise (KeyError "headline").
Proof.
  intros Hno. unfold domain_factor. rewrite row_getitem_headline.
  destruct (list_find _ _) as [[i [k v]]|] eqn:Hfind; [|done].
  apply list_find_Some in Hfind as (Hi & Hk & _). cbn in Hk. subst k.
  apply list_elem_of_lookup_2 in Hi. by destruct (Hno v).
Qed.

Lemma normalize_allowed (E : Env) (df : list RawEventRow) (row : RawEventRow) (t : Z) :
  row ∈ filter_allowed df → ∃ r, normalize E (row, t) = Ok r.
Proof.
  intros Hrow. apply filter_allowed_elem in Hrow as (_ & _ & Hc).
  destruct (color_severity_allowed _ Hc) as (v & _ & Hs).
  unfold normalize. cbn [fst snd]. rewrite Hs. by eexists.
Qed.

(** Whenever a row without a [headline] column reaches line 162,
    [enrich_data] raises [KeyError]. *)
Lemma enrich_data_KeyError (E : Env) (df : list RawEventRow) (rows : list (RawEventRow * Z))
    (times : list (option Z)) (trace : list request) :
  mapM (λ row, convert_to_utc_ms (date_label row) (time_label row)) (filter_allowed df)
  = Ok times →
  dropna (zip (filter_allowed df) times) = rows →
  rows ≠ [] →
  Forall (λ rt, ∀ v, ("headline", v) ∉ other rt.1) rows →
  enrich_data E df trace = (Raise (KeyError "headline"), trace).
Proof.
  intros Htimes Hrows Hne Hno.
  assert (Hne' : filter_allowed df ≠ []).
  { intros Hnil. rewrite Hnil in Hrows. by subst rows. }
  unfold enrich_data, mbind, prog_bind, lift, scored_frame.
  rewrite apply_rows_mapM, Htimes by done. cbn [mbind result_bind]. rewrite Hrows.
  destruct (mapM (normalize E) rows) as [frame|e] eqn:Hframe.
  - apply mapM_Ok_inv in Hframe.
    destruct Hframe as [|rt r rows' frame' Hr Hframe]; [done|].
    cbn [mbind result_bind apply_rows].
    rewrite (mapM_Raise_head _ _ _ (KeyError "headline")); [done|].
    unfold score. rewrite domain_factor_KeyError; [done|].
    apply normalize_inv in Hr as (-> & _). by apply Forall_cons in Hno as [Hno _].
  - exfalso. apply mapM_Raise_inv in Hframe as ([raw t] & Hin & Hr).
    rewrite <- Hrows in Hin. apply dropna_elem in Hin.
    apply mapM_Ok_inv in Htimes.
    apply (Forall2_zip_elem _ _ _ _ _ Htimes) in Hin as [Hallowed _].
    destruct (normalize_allowed E df raw t Hallowed) as (r & Hr'). congruence.
Qed.

(** C3, at the failing input: for a frame as [reformat_scraped_data] writes
    it, whose text column is [event], [domain_factor] raises
    [KeyError('headline')] at line 152 and [enrich_data] with it; no keyword
    multiplier is applied. Had the frame a [headline] column with the same
    text, the factor would be 1.0 * 1.25 * 1.1 as claimed. *)
Theorem domain_factor_keywords_KeyError :
  (∀ E trace,
      enrich_data E [sanctions_row] trace = (Raise (KeyError "headline"), trace)) ∧
  has_keyword (event sanctions_row) GEOPOLITICAL_KEYWORDS = true ∧
  has_keyword (event sanctions_row) COMMODITY_KEYWORDS = true ∧
  (∀ E,
      domain_factor_column
        (scored_frame E [with_headline sanctions_row (event sanctions_row)])
      = Ok [(1.0 * 1.25 * 1.1)%float]).
Proof.
  split; [|split; [vm_compute; reflexivity|split; [vm_compute; reflexivity|]]].
  - intros E trace.
    apply (enrich_data_KeyError E _ [(sanctions_row, 1727964000000)] [Some 1727964000000]).
    + vm_compute; reflexivity.
    + vm_compute; reflexivity.
    + done.
    + repeat constructor. intros v. apply not_elem_of_nil.
  - intros E. vm_compute; reflexivity.
Qed.

(** C4, at the failing input: in a batch of a EUR row and a USD row read from
    the CSV file, [domain_factor] raises [KeyError('headline')] before the
    test of line 157 is reached, so that no row receives the multiplier. Had
    the frame a [headline] column, the EUR row would receive the 1.1 of the
    batch as claimed, and would not receive it without the USD row. *)
Theorem domain_factor_usd_KeyError :
  (∀ E trace,
      enrich_data E [sanctions_row; fomc_row] trace = (Raise (KeyError "headline"), trace)) ∧
  (∀ E,
      domain_factor_column
        (scored_frame E [with_headline sanctions_row (event sanctions_row);
                         with_headline fomc_row (event fomc_row)])
      = Ok [(1.0 * 1.25 * 1.1 * 1.1)%float; (1.0 * 1.2 * 1.1)%float]) ∧
  (∀ E,
      domain_factor_column
        (scored_frame E [with_headline sanctions_row (event sanctions_row)])
      = Ok [(1.0 * 1.25 * 1.1)%float]).
Proof.
  split; [|split].
  - intros E trace.
    apply (enrich_data_KeyError E _
             [(sanctions_row, 1727964000000); (fomc_row, 1727857800000)]
             [Some 1727964000000; Some 1727857800000]).
    + vm_compute; reflexivity.
    + vm_compute; reflexivity.
    + done.
    + repeat constructor; intros v; apply not_elem_of_nil.
  - intros E. vm_compute; reflexivity.
  - intros E. vm_compute; reflexivity.
Qed.

(** ** Coverage adapter *)

Lemma dict_get_absent (data : list (string * pyval)) (key : string) (default : pyval) :
  (∀ v, (key, v) ∉ data) → dict_get data key default = default.
Proof.
  induction data as [|[k v] data IH]; intros Hno; [done|].
  cbn [dict_get]. destruct (String.eqb k key) eqn:Hk.
  - apply String.eqb_eq in Hk as ->. destruct (Hno v). by left.
  - apply IH. intros v' Hin. apply (Hno v'). by right.
Qed.

Lemma coverage_count_of_failed (o : http_outcome) :
  lookup_failed o → coverage_count_of o = PInt 0.
Proof.
  unfold coverage_count_of.
  intros [err|status json Hs|status|status v Hv|status data Hno]; cbn [try_total_results].
  - done.
  - unfold raise_for_status.
    replace (400 <=? status) with true by (symmetry; apply Z.leb_le; lia).
    by replace (status <? 600) with true by (symmetry; apply Z.ltb_lt; lia).
  - by destruct (raise_for_status status).
  - destruct (raise_for_status status); [done|].
    destruct v; try done. by destruct (Hv d).
  - destruct (raise_for_status status); [done|]. by rewrite dict_get_absent.
Qed.

(** C7, at the failing input: a response 200 whose body holds a null
    "totalResults". The [try] statement covers what raises and the default of
    [get] covers an absent key, but a value that is present and is not a
    number passes both: [fetch_news_coverage] returns the null where the
    claim has it return 0, [compute_coverage_factor] raises [TypeError] on it
    and the run of [enrich_data] ends there, after the request. The failures
    that the [try] statement does cover give the count 0, for every keyword
    and every time that [datetime] can shift by a day: a request that raises,
    a 4xx or 5xx status, a body that is not a JSON object, an object without
    "totalResults". *)
Theorem fetch_news_coverage_fail_safe :
  fetch_news_coverage (with_service sample_env null_count_service)
    "MonetaryPolicy" 1727857800000 []
  = (Ok PNone, [row_request sample_env fomc_scored]) ∧
  PNone ≠ PInt 0 ∧
  compute_coverage_factor PNone = Raise TypeError ∧
  enrich_data (with_service sample_env null_count_service)
    [with_headline fomc_row "Fed FOMC Rate Decision"] []
  = (Raise TypeError, [row_request sample_env fomc_scored]) ∧
  (∀ E keyword event_time_ms trace,
      window_representable event_time_ms = true →
      lookup_failed (http_get E trace (coverage_request E keyword event_time_ms)) →
      fetch_news_coverage E keyword event_time_ms trace
      = (Ok (PInt 0), trace ++ [coverage_request E keyword event_time_ms])).
Proof.
  split; [vm_compute; reflexivity|]. split; [done|].
  split; [reflexivity|]. split; [vm_compute; reflexivity|].
  intros E keyword event_time_ms trace Hw Hfail.
  rewrite fetch_news_coverage_window by done.
  by rewrite coverage_count_of_failed.
Qed.

Lemma fetch_news_coverage_fail_safe_witness :
  window_representable 1727857800000 = true ∧
  lookup_failed (Response 503 None) ∧
  fetch_news_coverage (with_service sample_env (λ _ _, Response 503 None))
    "MonetaryPolicy" 1727857800000 []
  = (Ok (PInt 0), [row_request sample_env fomc_scored]).
Proof.
  assert (Hfail : lookup_failed (Response 503 None)) by apply failed_body.
  split; [reflexivity|]. split; [exact Hfail|].
  exact (proj2 (proj2 (proj2 (proj2 fetch_news_coverage_fail_safe)))
           (with_service sample_env (λ _ _, Response 503 None))
           "MonetaryPolicy" 1727857800000 [] eq_refl Hfail).
Defined.

(** A status that is neither 4xx nor 5xx is no failure for
    [raise_for_status]: the body of such a response is read like that of a
    200 one. *)
Lemma fetch_news_coverage_other_status (E : Env) (keyword : string) (event_time_ms : Z)
    (trace : list request) (status_code : Z) (data : list (string * pyval)) :
  window_representable event_time_ms = true →
  http_get E trace (coverage_request E keyword event_time_ms)
  = Response status_code (Some (PDict data)) →
  ¬ 400 ≤ status_code < 600 →
  fetch_news_coverage E keyword event_time_ms trace
  = (Ok (dict_get data "totalResults" (PInt 0)),
     trace ++ [coverage_request E keyword event_time_ms]).
Proof.
  intros Hw Hget Hs. rewrite fetch_news_coverage_window, Hget by done.
  unfold coverage_count_of. cbn [try_total_results]. unfold raise_for_status.
  destruct (400 <=? status_code) eqn:H1; [|done].
  destruct (status_code <? 600) eqn:H2; [|done].
  apply Z.leb_le in H1. apply Z.ltb_lt in H2. lia.
Qed.

(** ** The exceptions of a run *)

Lemma compute_coverage_factor_raises (coverage_count : pyval) (e : exn) :
  compute_coverage_factor coverage_count = Raise e → e = TypeError.
Proof.
  unfold compute_coverage_factor. destruct (eq_zero coverage_count); [done|].
  destruct coverage_count as [|b|z|f|s|l|d]; cbn [between_1_and_5 mbind result_bind];
    try (intros H; by injection H as <-).
  - by destruct b.
  - by destruct (_ && _).
  - by destruct (_ && _).
Qed.

Lemma domain_factor_raises (df : list Row) (row : Row) (e : exn) :
  domain_factor df row = Raise e → e = KeyError "headline" ∨ e = AttributeError.
Proof.
  unfold domain_factor. rewrite row_getitem_headline.
  destruct (list_find _ _) as [[i [k v]]|]; cbn [mbind result_bind snd].
  - destruct v; cbn [contains_keyword mbind result_bind];
      intros H; first [discriminate H|injection H as <-; by right].
  - intros [= <-]. by left.
Qed.

Lemma severity_row_raises (E : Env) (row : ScoredRow) (e : exn) (trace trace' : list request) :
  severity_row E row trace = (Raise e, trace') →
  e = ValueError ∨ e = OverflowError ∨ e = TypeError.
Proof.
  destruct (future_event (base row)) eqn:Hf.
  { by rewrite severity_row_future. }
  destruct (window_representable (time_ms (base row))) eqn:Hw.
  - rewrite severity_row_past by done.
    destruct (compute_coverage_factor _) as [cf|e'] eqn:Hcf; [done|].
    intros [= <- _]. right. right. by eapply compute_coverage_factor_raises.
  - destruct (severity_row_no_window E row trace Hf Hw) as (e' & He & ->).
    intros [= <- _]. tauto.
Qed.

Lemma severity_loop_raises (E : Env) (rows : list ScoredRow) (e : exn)
    (trace trace' : list request) :
  severity_loop E rows trace = (Raise e, trace') →
  e = ValueError ∨ e = OverflowError ∨ e = TypeError.
Proof.
  revert trace trace'. induction rows as [|row rows IH]; intros trace trace' H; [done|].
  cbn [severity_loop] in H. unfold mbind, prog_bind in H.
  destruct (severity_row E row trace) as [[sev|e'] tr1] eqn:Hrow.
  - fold (@mbind prog _) in H.
    destruct (severity_loop E rows tr1) as [[sevs|e'] tr2] eqn:Hloop; [done|].
    injection H as <- _. exact (IH _ _ Hloop).
  - injection H as <- _. exact (severity_row_raises _ _ _ _ _ Hrow).
Qed.

Lemma scored_frame_raises (E : Env) (df : list RawEventRow) (e : exn) :
  scored_frame E df = Raise e →
  e = ValueError ∨ e = KeyError "headline" ∨ e = AttributeError.
Proof.
  unfold scored_frame. intros H.
  destruct (apply_rows _ (filter_allowed df)) as [times|e'] eqn:Htimes.
  - cbn [mbind result_bind] in H. apply apply_rows_Ok_inv in Htimes as [_ Htimes].
    destruct (mapM (normalize E) _) as [frame|e'] eqn:Hframe.
    + cbn [mbind result_bind] in H.
      apply apply_rows_Raise_inv in H as [[_ ->]|[_ H]]; [by left|].
      apply mapM_Raise_inv in H as (r & _ & Hr). unfold score in Hr.
      destruct (domain_factor frame r) as [d|e'] eqn:Hd; [done|].
      injection Hr as <-. right. by eapply domain_factor_raises.
    + exfalso. apply mapM_Raise_inv in Hframe as ([raw t] & Hin & Hr).
      apply dropna_elem in Hin. apply mapM_Ok_inv in Htimes.
      apply (Forall2_zip_elem _ _ _ _ _ Htimes) in Hin as [Hallowed _].
      destruct (normalize_allowed E df raw t Hallowed) as (r & Hr'). congruence.
  - injection H as <-.
    apply apply_rows_Raise_inv in Htimes as [[_ ->]|[_ Htimes]]; [by left|].
    apply mapM_Raise_inv in Htimes as (row & _ & Hr).
    apply convert_to_utc_ms_mismatch in Hr as (? & ? & ? & ? & _ & _ & ->). by left.
Qed.

(** Every exception a run of [enrich_data] can end with. *)
Lemma enrich_data_raises (E : Env) (df : list RawEventRow) (e : exn)
    (trace trace' : list request) :
  enrich_data E df trace = (Raise e, trace') →
  e = ValueError ∨ e = KeyError "headline" ∨ e = AttributeError ∨
  e = OverflowError ∨ e = TypeError.
Proof.
  unfold enrich_data, mbind, prog_bind, lift. intros H.
  destruct (scored_frame E df) as [rows|e'] eqn:Hrows.
  - destruct (severity_loop E rows trace) as [[sevs|e'] tr] eqn:Hloop; [done|].
    injection H as <- _. apply severity_loop_raises in Hloop. tauto.
  - injection H as <- _. apply scored_frame_raises in Hrows. tauto.
Qed.

(** ** The severity lookup *)

(** C10: every colour of [ALLOWED_IMPACT_COLORS] is a key of
    [COLOR_SEVERITY_MAP]; so for a row that passed the impact filter the
    severity lookup of lines 109 and 110 returns and the [KeyError] branch is
    not taken: a run of [enrich_data] that ends with a [KeyError] ends with
    that of the [headline] lookup of line 152. The map is not injective:
    yellow and gray both give ("Low", 1). *)
Theorem allowed_colors_have_severity :
  (∀ c, c ∈ ALLOWED_IMPACT_COLORS → is_Some (COLOR_SEVERITY_MAP !! c)) ∧
  (∀ E df row t,
      row ∈ filter_allowed df →
      ∃ r, normalize E (row, t) = Ok r ∧
           COLOR_SEVERITY_MAP !! impact row = Some (severity_category r, severity_level r)) ∧
  (∀ E df trace trace' c,
      enrich_data E df trace = (Raise (KeyError c), trace') → c = "headline") ∧
  COLOR_SEVERITY_MAP !! "yellow" = Some ("Low", 1) ∧
  COLOR_SEVERITY_MAP !! "gray" = Some ("Low", 1) ∧
  "yellow" ≠ "gray".
Proof.
  split; [|split; [|split; [|done]]].
  - intros c Hc. destruct (color_severity_allowed c Hc) as (v & Hv & _). by exists v.
  - intros E df row t Hrow. apply filter_allowed_elem in Hrow as (_ & _ & Hc).
    destruct (color_severity_allowed _ Hc) as ([cat lvl] & Hv & Hs).
    unfold normalize. cbn [fst snd]. rewrite Hs. cbn.
    eexists. split; [reflexivity|]. exact Hv.
  - intros E df trace trace' c H.
    apply enrich_data_raises in H as [H|[H|[H|[H|H]]]]; try discriminate H.
    by injection H as ->.
Qed.

Lemma allowed_colors_have_severity_witness :
  "orange" ∈ ALLOWED_IMPACT_COLORS ∧ is_Some (COLOR_SEVERITY_MAP !! "orange") ∧
  fomc_row ∈ filter_allowed [fomc_row] ∧
  (∃ r, normalize sample_env (fomc_row, 1727857800000) = Ok r ∧
        COLOR_SEVERITY_MAP !! "red" = Some (severity_category r, severity_level r)) ∧
  enrich_data sample_env [fomc_row] [] = (Raise (KeyError "headline"), []).
Proof.
  destruct allowed_colors_have_severity as (Hkey & Hrow & Hrun & _).
  assert (Herr : ∃ c, enrich_data sample_env [fomc_row] [] = (Raise (KeyError c), []))
    by (eexists; vm_compute; reflexivity).
  destruct Herr as [c Herr]. pose proof (Hrun _ _ _ _ _ Herr) as Hc.
  assert (Horange : "orange" ∈ ALLOWED_IMPACT_COLORS)
    by (unfold ALLOWED_IMPACT_COLORS; rewrite !elem_of_cons; tauto).
  assert (Hin : fomc_row ∈ filter_allowed [fomc_row])
    by (vm_compute; constructor).
  split; [exact Horange|]. split; [exact (Hkey _ Horange)|].
  split; [exact Hin|].
  split; [exact (Hrow sample_env [fomc_row] fomc_row 1727857800000 Hin)|].
  by rewrite <- Hc.
Defined.


(** * Further properties *)

(** ** [reformat_scraped_data] *)

Lemma latest_nil (is_marker : list string → bool) (default : string) :
  latest is_marker default [] = default.
Proof. reflexivity. Qed.

Lemma latest_cons (is_marker : list string → bool) (default : string)
    (row : list string) (data : list (list string)) :
  latest is_marker default (row :: data)
  = latest is_marker (if is_marker row then first_cell row else default) data.
Proof.
  unfold latest. rewrite filter_cons.
  destruct (is_marker row) eqn:Hrow.
  - rewrite decide_True by done. rewrite last_cons.
    by destruct (last (filter _ data)).
  - by rewrite decide_False by done.
Qed.

Lemma structured_rows_from_cons (current_date current_time : string)
    (row : list string) (data : list (list string)) :
  structured_rows_from current_date current_time (row :: data)
  = (if is_event_row row
     then [current_date :: current_time :: last_three row] else [])
    ++ structured_rows_from
         (if is_date_row row then first_cell row else current_date)
         (if is_time_row row then first_cell row else current_time) data.
Proof.
  cbn [structured_rows_from]. unfold is_event_row, is_date_row, is_time_row.
  destruct ((length row =? 1) || (length row =? 5))%nat eqn:Hd.
  - apply orb_prop in Hd as [Hd|Hd]; apply Nat.eqb_eq in Hd; rewrite Hd; done.
  - apply orb_false_elim in Hd as [H1 H5]. rewrite H5.
    destruct (length row =? 4)%nat; [by rewrite andb_false_r|].
    by destruct (1 <? length row)%nat.
Qed.

Lemma structured_rows_from_app (current_date current_time : string)
    (data1 data2 : list (list string)) :
  structured_rows_from current_date current_time (data1 ++ data2)
  = structured_rows_from current_date current_time data1
    ++ structured_rows_from (latest is_date_row current_date data1)
         (latest is_time_row current_time data1) data2.
Proof.
  revert current_date current_time.
  induction data1 as [|row data1 IH]; intros current_date current_time; [done|].
  rewrite <- app_comm_cons, !structured_rows_from_cons, IH, !latest_cons.
  by rewrite app_assoc.
Qed.

Lemma structured_rows_from_cells (current_date current_time : string)
    (data : list (list string)) :
  drop 2 <$> structured_rows_from current_date current_time data
  = last_three <$> filter (λ row, is_event_row row = true) data.
Proof.
  revert current_date current_time.
  induction data as [|row data IH]; intros d t; [done|].
  rewrite structured_rows_from_cons, fmap_app, IH, filter_cons.
  destruct (is_event_row row).
  - by rewrite decide_True by done.
  - by rewrite decide_False by done.
Qed.

Lemma structured_rows_from_width (current_date current_time : string)
    (data : list (list string)) :
  Forall (λ fields, length fields = 4%nat ∨ length fields = 5%nat)
    (structured_rows_from current_date current_time data).
Proof.
  revert current_date current_time.
  induction data as [|row data IH]; intros d t; [constructor|].
  rewrite structured_rows_from_cons. apply Forall_app. split; [|apply IH].
  destruct (is_event_row row) eqn:Hrow; [|constructor].
  apply Forall_singleton. unfold is_event_row in Hrow.
  apply andb_prop in Hrow as [Hrow _]. apply andb_prop in Hrow as [Hrow _].
  apply Nat.ltb_lt in Hrow. cbn [length]. unfold last_three. rewrite length_drop. lia.
Qed.

Lemma structured_rows_two_cells (current_date current_time : string)
    (data : list (list string)) :
  Forall (λ fields, length fields = 4%nat) (structured_rows_from current_date current_time data)
  ↔ Forall (λ row, length row = 2%nat) (filter (λ row, is_event_row row = true) data).
Proof.
  revert current_date current_time.
  induction data as [|row data IH]; intros d t; [done|].
  rewrite structured_rows_from_cons, filter_cons, Forall_app, IH.
  destruct (is_event_row row) eqn:Hrow.
  - rewrite decide_True by done. rewrite Forall_singleton, Forall_cons.
    unfold is_event_row in Hrow.
    apply andb_prop in Hrow as [Hrow _]. apply andb_prop in Hrow as [Hrow _].
    apply Nat.ltb_lt in Hrow. cbn [length]. unfold last_three. rewrite length_drop.
    split; intros [H1 H2]; (split; [lia|done]).
  - rewrite decide_False by done. split; [tauto|]. by split; [constructor|].
Qed.

Lemma widest_4_or_5 (rows : list (list string)) :
  rows ≠ [] →
  Forall (λ fields, length fields = 4%nat ∨ length fields = 5%nat) rows →
  (widest rows = 4%nat ∧ Forall (λ fields, length fields = 4%nat) rows) ∨
  (widest rows = 5%nat ∧ ¬ Forall (λ fields, length fields = 4%nat) rows).
Proof.
  intros Hne Hall. unfold widest.
  assert (Hmax : max_list (length <$> rows) ∈ length <$> rows).
  { apply max_list_elem_of. by destruct rows. }
  apply list_elem_of_fmap in Hmax as (widest_row & Hmax & Hin).
  destruct (proj1 (Forall_forall _ _) Hall _ Hin) as [H4|H5].
  - left. split; [congruence|]. apply Forall_forall. intros fields Hfields.
    assert (length fields ≤ max_list (length <$> rows))%nat
      by (apply max_list_elem_of_le, list_elem_of_fmap; by exists fields).
    destruct (proj1 (Forall_forall _ _) Hall _ Hfields); [done|lia].
  - right. split; [congruence|]. intros Hfour.
    pose proof (proj1 (Forall_forall _ _) Hfour _ Hin) as H4. cbn beta in H4. lia.
Qed.

(** The constructor on the rows of the loop, whose width is four or five. *)
Lemma DataFrame_five_columns (rows : list (list string)) :
  Forall (λ fields, length fields = 4%nat ∨ length fields = 5%nat) rows →
  DataFrame rows ["date"; "time"; "currency"; "impact"; "event"]
  = if bool_decide (rows ≠ [] ∧ Forall (λ fields, length fields = 4%nat) rows)
    then Raise ValueError else Ok (fill 5 <$> rows).
Proof.
  intros Hall. destruct rows as [|fields rows].
  { rewrite bool_decide_eq_false_2; [done|]. by intros [? _]. }
  destruct (widest_4_or_5 (fields :: rows)) as [[Hw Hfour]|[Hw Hfour]]; [done..| |].
  - rewrite bool_decide_eq_true_2 by done. cbn [DataFrame length]. by rewrite Hw.
  - rewrite bool_decide_eq_false_2 by tauto. cbn [DataFrame length]. by rewrite Hw.
Qed.

Lemma fill_date_time (date time : string) (cells : list string) :
  fill 5 (date :: time :: cells) = Some date :: Some time :: fill 3 cells.
Proof. reflexivity. Qed.

Lemma reformat_scraped_data_cases (data : list (list string)) (month : string) :
  reformat_scraped_data data month
  = if bool_decide (filter (λ row, is_event_row row = true) data ≠ [] ∧
                    Forall (λ row, length row = 2%nat)
                      (filter (λ row, is_event_row row = true) data))
    then Raise ValueError
    else Ok (fill 5 <$> structured_rows_from EmptyString EmptyString data).
Proof.
  unfold reformat_scraped_data. cbv zeta.
  rewrite DataFrame_five_columns by apply structured_rows_from_width.
  assert (Hiff :
    structured_rows_from EmptyString EmptyString data ≠ [] ∧
    Forall (λ fields, length fields = 4%nat) (structured_rows_from EmptyString EmptyString data)
    ↔ filter (λ row, is_event_row row = true) data ≠ [] ∧
      Forall (λ row, length row = 2%nat) (filter (λ row, is_event_row row = true) data)).
  { rewrite structured_rows_two_cells.
    pose proof (structured_rows_from_cells EmptyString EmptyString data) as Hcells.
    apply (f_equal length) in Hcells. rewrite !length_fmap in Hcells.
    split; intros [Hne Htwo]; (split; [|done]); intros Hnil; apply Hne;
      apply length_zero_iff_nil; apply (f_equal length) in Hnil; cbn in Hnil; lia. }
  by rewrite (bool_decide_ext _ _ Hiff).
Qed.

(** X1: [reformat_scraped_data] raises [ValueError] exactly when the
    scraped data has rows of two cells, three or more than five and all of
    them have two cells: the frame constructor then gets rows of four fields
    for five column labels. Otherwise it returns one row of five fields for
    each such scraped row, in their order; the fields after the date and the
    time are the last three cells of the scraped row, a row of two cells
    being filled with a null. A scraped row of no cell, one, four or five
    gives no row: the event of a row that shows its own date or time is not
    kept. *)
Theorem reformat_keeps_event_rows (data : list (list string)) (month : string) :
  (reformat_scraped_data data month = Raise ValueError ↔
   filter (λ row, is_event_row row = true) data ≠ [] ∧
   Forall (λ row, length row = 2%nat) (filter (λ row, is_event_row row = true) data)) ∧
  (∀ e, reformat_scraped_data data month = Raise e → e = ValueError) ∧
  (∀ rows,
      reformat_scraped_data data month = Ok rows →
      drop 2 <$> rows
      = (λ row, fill 3 (last_three row)) <$> filter (λ row, is_event_row row = true) data ∧
      length rows = length (filter (λ row, is_event_row row = true) data) ∧
      Forall (λ fields, length fields = 5%nat) rows).
Proof.
  rewrite reformat_scraped_data_cases.
  pose proof (structured_rows_from_cells EmptyString EmptyString data) as Hcells.
  pose proof (structured_rows_from_width EmptyString EmptyString data) as Hwidth.
  destruct (bool_decide _) eqn:Hcase.
  - apply bool_decide_eq_true in Hcase.
    split; [done|]. split; [by intros e [= <-]|done].
  - apply bool_decide_eq_false in Hcase.
    split; [split; [done|tauto]|]. split; [done|]. intros rows [= <-].
    split; [|split].
    + transitivity (fill 3 <$> (drop 2 <$> structured_rows_from EmptyString EmptyString data));
        [|by rewrite Hcells, <- list_fmap_compose].
      rewrite <- !list_fmap_compose. apply Forall_fmap_ext_1.
      eapply Forall_impl; [exact Hwidth|]. intros fields Hlen. cbn.
      destruct fields as [|date [|time cells]]; cbn in Hlen; [lia..|].
      by rewrite fill_date_time.
    + apply (f_equal length) in Hcells. by rewrite !length_fmap in *.
    + apply Forall_fmap. eapply Forall_impl; [exact Hwidth|]. intros fields Hlen.
      unfold compose, fill. rewrite length_app, length_fmap, length_replicate.
      by destruct Hlen as [-> | ->].
Qed.

Lemma reformat_keeps_event_rows_witness :
  reformat_scraped_data [["Wed Oct 2"]; ["EUR"; "ECB President Speaks"]] "October"
  = Raise ValueError ∧
  drop 2 <$> [[Some "Wed Oct 2"; Some "10:30am"; Some "EUR"; Some "yellow";
               Some "ECB President Speaks"];
              [Some "Wed Oct 2"; Some "10:30am"; Some "Holiday"; Some "Bank Holiday"; None]]
  = (λ row, fill 3 (last_three row))
      <$> filter (λ row, is_event_row row = true)
            [["Wed Oct 2"];
             ["10:30am"; "USD"; "orange"; "Crude Oil Inventories"];
             ["EUR"; "yellow"; "ECB President Speaks"];
             ["Holiday"; "Bank Holiday"]].
Proof.
  split.
  - apply (proj1 (reformat_keeps_event_rows
                    [["Wed Oct 2"]; ["EUR"; "ECB President Speaks"]] "October")).
    split; [discriminate|]. by repeat constructor.
  - apply (proj2 (proj2 (reformat_keeps_event_rows
                           [["Wed Oct 2"];
                            ["10:30am"; "USD"; "orange"; "Crude Oil Inventories"];
                            ["EUR"; "yellow"; "ECB President Speaks"];
                            ["Holiday"; "Bank Holiday"]] "October"))).
    reflexivity.
Defined.

(** X2: when [reformat_scraped_data] returns, the first two fields of a
    kept row are the date and the time in force: the first cell of the last
    earlier row of one cell or five, and that of the last earlier row of four
    cells; each is the empty string when there is no such row. *)
Theorem reformat_date_time_in_force (earlier later : list (list string))
    (row : list string) (month : string) (rows : list (list (option string))) :
  is_event_row row = true →
  reformat_scraped_data (earlier ++ row :: later) month = Ok rows →
  rows !! length (filter (λ row, is_event_row row = true) earlier)
  = Some (Some (latest is_date_row EmptyString earlier)
          :: Some (latest is_time_row EmptyString earlier)
          :: fill 3 (last_three row)).
Proof.
  intros Hrow. rewrite reformat_scraped_data_cases.
  destruct (bool_decide _); [done|]. intros [= <-].
  rewrite structured_rows_from_app, structured_rows_from_cons, Hrow.
  assert (Hlen : length (structured_rows_from EmptyString EmptyString earlier)
                 = length (filter (λ row, is_event_row row = true) earlier)).
  { pose proof (structured_rows_from_cells EmptyString EmptyString earlier) as H.
    apply (f_equal length) in H. by rewrite !length_fmap in H. }
  rewrite list_lookup_fmap, lookup_app_r by lia. rewrite Hlen, Nat.sub_diag. reflexivity.
Qed.

Lemma reformat_date_time_in_force_witness :
  is_event_row ["EUR"; "yellow"; "ECB President Speaks"] = true ∧
  [[Some "Wed Oct 2"; Some "10:30am"; Some "EUR"; Some "yellow"; Some "ECB President Speaks"]]
  !! 0%nat
  = Some [Some "Wed Oct 2"; Some "10:30am"; Some "EUR"; Some "yellow";
          Some "ECB President Speaks"].
Proof.
  split; [reflexivity|].
  exact (reformat_date_time_in_force
           [["Wed Oct 2"; "8:15am"; "USD"; "red"; "ADP Employment Change"];
            ["10:30am"; "USD"; "orange"; "Crude Oil Inventories"]]
           [] ["EUR"; "yellow"; "ECB President Speaks"] "October"
           [[Some "Wed Oct 2"; Some "10:30am"; Some "EUR"; Some "yellow";
             Some "ECB President Speaks"]]
           eq_refl eq_refl).
Defined.

(** ** The scraping loop *)

Lemma icon_color_cases (impact_class color : string) :
  ICON_COLOR_MAP !! impact_class = Some color →
  color = "yellow" ∨ color = "orange" ∨ color = "red" ∨ color = "gray".
Proof.
  intros H. apply elem_of_list_to_map_2 in H.
  rewrite !elem_of_cons, elem_of_nil in H.
  destruct H as [H|[H|[H|[H|[]]]]]; injection H as -> ->; tauto.
Qed.

Lemma allowed_element_cases (class_name : string) :
  is_Some (ALLOWED_ELEMENT_TYPES !! class_name) →
  class_name = "calendar__cell" ∨ class_name = "calendar__cell calendar__date" ∨
  class_name = "calendar__cell calendar__time" ∨
  class_name = "calendar__cell calendar__currency" ∨
  class_name = "calendar__cell calendar__impact" ∨
  class_name = "calendar__cell calendar__event event".
Proof.
  intros [kind H]. apply elem_of_list_to_map_2 in H.
  rewrite !elem_of_cons, elem_of_nil in H.
  destruct H as [H|[H|[H|[H|[H|[H|[]]]]]]]; injection H as -> _; tauto.
Qed.

Lemma impact_color_from_last (color : option string) (impact_elements : list (option string)) :
  impact_color_from color impact_elements
  = match last impact_elements with
    | Some impact_class => impact_class ≫= λ c, ICON_COLOR_MAP !! c
    | None => color
    end.
Proof.
  revert color. induction impact_elements as [|sp spans IH]; intros color; [done|].
  cbn [impact_color_from]. rewrite IH, last_cons. by destruct (last spans).
Qed.

(** X3: an impact cell without text gives one value, the colour of the icon
    of its last [span]; when the cell has no [span], or the last one is not
    one of the four icons, the value is the placeholder "impact", whatever
    the spans before it are. *)
Theorem impact_cell_value (element : td) :
  td_class element = Some "calendar__cell calendar__impact" →
  td_text element = EmptyString →
  cell_data element
  = [default "impact" (last (td_spans element) ≫= λ sp, sp ≫= λ c, ICON_COLOR_MAP !! c)] ∧
  Forall (λ value, value ∈ ALLOWED_IMPACT_COLORS ∨ value = "impact") (cell_data element).
Proof.
  intros Hclass Htext.
  assert (Hcell : cell_data element
    = [default "impact"
         (last (td_spans element) ≫= λ sp, sp ≫= λ c, ICON_COLOR_MAP !! c)]).
  { unfold cell_data. rewrite Hclass, Htext, impact_color_from_last.
    change (bool_decide _) with true. cbn [negb String.eqb].
    change (str_in _ _) with true. cbn iota.
    destruct (last (td_spans element)) as [[c|]|]; cbn [mbind option_bind default]; try done.
    destruct (ICON_COLOR_MAP !! c) as [color|] eqn:Hc; [|done].
    by destruct (icon_color_cases _ _ Hc) as [-> | [-> | [-> | ->]]]. }
  split; [exact Hcell|]. rewrite Hcell. apply Forall_singleton.
  destruct (last (td_spans element)) as [[c|]|]; cbn [mbind option_bind default];
    try (by right).
  destruct (ICON_COLOR_MAP !! c) as [color|] eqn:Hc; [|by right].
  left. unfold ALLOWED_IMPACT_COLORS. rewrite !elem_of_cons.
  destruct (icon_color_cases _ _ Hc) as [-> | [-> | [-> | ->]]]; tauto.
Qed.

Lemma impact_cell_value_witness :
  cell_data {| td_class := Some "calendar__cell calendar__impact";
               td_text := EmptyString;
               td_spans := [Some "icon icon--ff-impact-red"; Some "icon"] |}
  = ["impact"].
Proof.
  destruct (impact_cell_value
              {| td_class := Some "calendar__cell calendar__impact";
                 td_text := EmptyString;
                 td_spans := [Some "icon icon--ff-impact-red"; Some "icon"] |}
              eq_refl eq_refl) as [Hcell _].
  rewrite Hcell. reflexivity.
Defined.

Lemma cell_data_not_allowed (element : td) (class_name : string) :
  td_class element = Some class_name →
  ALLOWED_ELEMENT_TYPES !! class_name = None →
  cell_data element = [].
Proof.
  intros Hclass Hnone. unfold cell_data. rewrite Hclass, Hnone.
  by rewrite bool_decide_eq_false_2 by (by intros [? ?]).
Qed.

(** X4: a [td] adds nothing to the row when its [class] attribute is not set
    or is not a key of [ALLOWED_ELEMENT_TYPES], which holds of every class of
    [EXCLUDED_ELEMENT_TYPES]; nor does a cell without text, other than the
    impact cell. *)
Theorem unlisted_cells_add_nothing (element : td) :
  (td_class element = None → cell_data element = []) ∧
  (∀ class_name,
      td_class element = Some class_name →
      ALLOWED_ELEMENT_TYPES !! class_name = None ∨
      class_name ∈ EXCLUDED_ELEMENT_TYPES ∨
      (td_text element = EmptyString ∧ class_name ≠ "calendar__cell calendar__impact") →
      cell_data element = []).
Proof.
  split.
  - intros Hclass. unfold cell_data. by rewrite Hclass.
  - intros class_name Hclass [Hnone|[Hexcluded|[Htext Hne]]].
    + by eapply cell_data_not_allowed.
    + eapply cell_data_not_allowed; [done|].
      unfold EXCLUDED_ELEMENT_TYPES in Hexcluded.
      rewrite !elem_of_cons, elem_of_nil in Hexcluded.
      destruct Hexcluded as [-> | [-> | [-> | []]]]; vm_compute; reflexivity.
    + unfold cell_data. rewrite Hclass, Htext.
      case_bool_decide as Hallowed; [|done]. cbn [negb String.eqb].
      apply allowed_element_cases in Hallowed
        as [-> | [-> | [-> | [-> | [-> | ->]]]]]; done.
Qed.

Lemma unlisted_cells_add_nothing_witness :
  cell_data {| td_class := Some "calendar__cell calendar__forecast";
               td_text := "0.2%"; td_spans := [] |} = [] ∧
  cell_data {| td_class := Some "calendar__cell calendar__time";
               td_text := EmptyString; td_spans := [] |} = [] ∧
  cell_data {| td_class := None; td_text := "Oct"; td_spans := [] |} = [].
Proof.
  split; [|split].
  - eapply (proj2 (unlisted_cells_add_nothing _)); [reflexivity|].
    right. left. unfold EXCLUDED_ELEMENT_TYPES. rewrite !elem_of_cons. tauto.
  - eapply (proj2 (unlisted_cells_add_nothing _)); [reflexivity|].
    right. right. split; [reflexivity|discriminate].
  - apply (proj1 (unlisted_cells_add_nothing _)). reflexivity.
Defined.

Lemma cell_data_cells (element : td) :
  Forall (λ cell, cell ≠ EmptyString) (cell_data element) ∧ (length (cell_data element) ≤ 1)%nat.
Proof.
  unfold cell_data. destruct (td_class element) as [class_name|]; [|by split; [constructor|cbn; lia]].
  case_bool_decide; [|by split; [constructor|cbn; lia]].
  destruct (String.eqb (td_text element) EmptyString) eqn:Htext; cbn [negb].
  - destruct (str_in _ _); [|by split; [constructor|cbn; lia]].
    destruct (impact_color_from _ _) as [color|]; [|by split; [repeat constructor|cbn; lia]].
    destruct (String.eqb color EmptyString) eqn:Hcolor; cbn [negb];
      (split; [apply Forall_singleton|cbn; lia]); [done|].
    by apply String.eqb_neq.
  - split; [|cbn; lia]. apply Forall_singleton. by apply String.eqb_neq.
Qed.

(** X5: the scraped data has no empty row and no empty cell, a row has at
    most one cell for each [td] of its [tr], and there are at most as many
    rows as [tr] elements. *)
Theorem scrape_table_rows (table : list (list td)) :
  Forall (λ row, row ≠ [] ∧ Forall (λ cell, cell ≠ EmptyString) row) (scrape_table table) ∧
  (∀ row, (length (row_data row) ≤ length row)%nat) ∧
  (length (scrape_table table) ≤ length table)%nat.
Proof.
  assert (Hlen : ∀ row, (length (row_data row) ≤ length row)%nat).
  { intros row. unfold row_data. induction row as [|element row IH]; [done|].
    cbn [map concat]. rewrite length_app. cbn [length].
    pose proof (cell_data_cells element) as [_ H1]. lia. }
  split; [|split; [exact Hlen|]].
  - unfold scrape_table. apply Forall_forall. intros cells Hin.
    apply list_elem_of_filter in Hin as [Hne Hin].
    split; [done|].
    apply list_elem_of_fmap in Hin as (row & -> & _).
    unfold row_data. clear Hne. induction row as [|element row IH]; [constructor|].
    cbn [map concat]. apply Forall_app. split; [|exact IH].
    apply cell_data_cells.
  - unfold scrape_table. etrans; [apply length_filter|]. by rewrite length_map.
Qed.

(** X6: the colours of [ICON_COLOR_MAP] are the colours of
    [ALLOWED_IMPACT_COLORS]: a row whose impact is the colour of an icon
    passes the impact filter of [enrich_data], a row that passes it carries
    the colour of an icon, and the placeholder "impact" of a cell without a
    known icon never passes. *)
Theorem icon_colors_are_the_allowed_ones :
  (∀ impact_class color,
      ICON_COLOR_MAP !! impact_class = Some color → color ∈ ALLOWED_IMPACT_COLORS) ∧
  (∀ color,
      color ∈ ALLOWED_IMPACT_COLORS → ∃ impact_class, ICON_COLOR_MAP !! impact_class = Some color) ∧
  (∀ df row,
      row ∈ filter_allowed df →
      impact row ≠ "impact" ∧ ∃ impact_class, ICON_COLOR_MAP !! impact_class = Some (impact row)).
Proof.
  assert (Hicon : ∀ color,
    color ∈ ALLOWED_IMPACT_COLORS → ∃ impact_class, ICON_COLOR_MAP !! impact_class = Some color).
  { intros color Hc. apply allowed_color_cases in Hc as [-> | [-> | [-> | ->]]].
    - by exists "icon icon--ff-impact-red".
    - by exists "icon icon--ff-impact-ora".
    - by exists "icon icon--ff-impact-yel".
    - by exists "icon icon--ff-impact-gra". }
  split; [|split; [exact Hicon|]].
  - intros impact_class color Hc. unfold ALLOWED_IMPACT_COLORS. rewrite !elem_of_cons.
    destruct (icon_color_cases _ _ Hc) as [-> | [-> | [-> | ->]]]; tauto.
  - intros df row Hrow. apply filter_allowed_elem in Hrow as (_ & _ & Hc).
    split; [|by apply Hicon].
    intros Himpact. rewrite Himpact in Hc.
    apply allowed_color_cases in Hc as [H | [H | [H | H]]]; discriminate H.
Qed.

Lemma icon_colors_are_the_allowed_ones_witness :
  ICON_COLOR_MAP !! "icon icon--ff-impact-ora" = Some "orange" ∧
  "orange" ∈ ALLOWED_IMPACT_COLORS ∧
  fomc_row ∈ filter_allowed [fomc_row] ∧
  impact fomc_row ≠ "impact".
Proof.
  destruct icon_colors_are_the_allowed_ones as (Hallowed & _ & Hrow).
  assert (Hora : ICON_COLOR_MAP !! "icon icon--ff-impact-ora" = Some "orange")
    by reflexivity.
  assert (Hin : fomc_row ∈ filter_allowed [fomc_row]) by (vm_compute; constructor).
  split; [exact Hora|]. split; [exact (Hallowed _ _ Hora)|].
  split; [exact Hin|]. exact (proj1 (Hrow _ _ Hin)).
Defined.

(** ** Coverage factor *)

Lemma compute_coverage_factor_int (c : Z) :
  compute_coverage_factor (PInt c)
  = Ok (if c =? 0 then 1.0%float
        else if (1 <=? c) && (c <=? 5) then 1.1%float else 1.2%float).
Proof.
  unfold compute_coverage_factor. cbn [eq_zero between_1_and_5 mbind result_bind].
  destruct (c =? 0); [done|]. by destruct ((1 <=? c) && (c <=? 5)).
Qed.

(** X7: [compute_coverage_factor] returns on a number (an [int], a [bool]
    or a [float]), and then one of 1.0, 1.1 and 1.2; on any other value, such
    as the null or the text a response may hold as "totalResults", it raises
    [TypeError]. *)
Theorem compute_coverage_factor_outcomes (coverage_count : pyval) :
  (is_number coverage_count = true →
   ∃ factor,
     compute_coverage_factor coverage_count = Ok factor ∧
     (factor = 1.0%float ∨ factor = 1.1%float ∨ factor = 1.2%float)) ∧
  (is_number coverage_count = false →
   compute_coverage_factor coverage_count = Raise TypeError).
Proof.
  split.
  - intros Hnum. unfold compute_coverage_factor.
    destruct (eq_zero coverage_count); [eexists; split; [done|tauto]|].
    destruct coverage_count as [|b|z|f|s|l|d]; try discriminate Hnum;
      cbn [between_1_and_5 mbind result_bind].
    + destruct b; eexists; (split; [done|tauto]).
    + destruct (_ && _); eexists; (split; [done|tauto]).
    + destruct (_ && _); eexists; (split; [done|tauto]).
  - intros Hnum.
    destruct coverage_count as [|b|z|f|s|l|d]; try discriminate Hnum; reflexivity.
Qed.

Lemma compute_coverage_factor_outcomes_witness :
  compute_coverage_factor (PStr "12") = Raise TypeError ∧
  ∃ factor,
    compute_coverage_factor (PFloat 2.5) = Ok factor ∧
    (factor = 1.0%float ∨ factor = 1.1%float ∨ factor = 1.2%float).
Proof.
  split.
  - apply (proj2 (compute_coverage_factor_outcomes (PStr "12"))). reflexivity.
  - apply (proj1 (compute_coverage_factor_outcomes (PFloat 2.5))). reflexivity.
Defined.

(** X8: on counts that are not negative the factor does not decrease when
    the count grows; a negative count gets 1.2, the factor of the largest
    counts. *)
Theorem compute_coverage_factor_monotone :
  (∀ c1 c2,
      0 ≤ c1 ≤ c2 →
      ∃ f1 f2,
        compute_coverage_factor (PInt c1) = Ok f1 ∧
        compute_coverage_factor (PInt c2) = Ok f2 ∧
        PrimFloat.leb f1 f2 = true) ∧
  (∀ c, c < 0 → compute_coverage_factor (PInt c) = Ok 1.2%float).
Proof.
  split.
  - intros c1 c2 Hc. rewrite !compute_coverage_factor_int.
    eexists _, _. split; [done|]. split; [done|].
    destruct (c1 =? 0) eqn:H1, (c2 =? 0) eqn:H2;
      destruct ((1 <=? c1) && (c1 <=? 5)) eqn:H3;
      destruct ((1 <=? c2) && (c2 <=? 5)) eqn:H4; try reflexivity; exfalso;
      rewrite ?Z.eqb_eq, ?Z.eqb_neq, ?andb_true_iff, ?andb_false_iff,
        ?Z.leb_le, ?Z.leb_gt in *; lia.
  - intros c Hc. rewrite compute_coverage_factor_int.
    replace (c =? 0) with false by (symmetry; apply Z.eqb_neq; lia).
    by replace (1 <=? c) with false by (symmetry; apply Z.leb_gt; lia).
Qed.

Lemma compute_coverage_factor_monotone_witness :
  (∃ f1 f2,
      compute_coverage_factor (PInt 2) = Ok f1 ∧
      compute_coverage_factor (PInt 40) = Ok f2 ∧
      PrimFloat.leb f1 f2 = true) ∧
  compute_coverage_factor (PInt (-1)) = Ok 1.2%float.
Proof.
  destruct compute_coverage_factor_monotone as [Hmono Hneg].
  split; [apply Hmono; lia|apply Hneg; lia].
Defined.

(** X9: when the lookup of a past row fails, the coverage count is 0 and
    the factor 1.0, so that the final severity of the row is its anticipated
    severity. *)
Theorem failed_lookup_final_is_anticipated (E : Env) (row : ScoredRow) (trace : list request) :
  future_event (base row) = false →
  window_representable (time_ms (base row)) = true →
  lookup_failed (http_get E trace (row_request E row)) →
  severity_row E row trace
  = (Ok (Some (official_sev row * vol_factor E row * sentiment_f row * domain_f row)%float,
         (official_sev row * vol_factor E row * sentiment_f row * domain_f row)%float),
     trace ++ [row_request E row]).
Proof.
  intros Hf Hw Hfail.
  rewrite severity_row_past, coverage_count_of_failed by done.
  change (compute_coverage_factor (PInt 0)) with (Ok 1.0%float : result float).
  cbn [mbind result_bind mret result_ret].
  by rewrite composite_no_coverage.
Qed.

Lemma failed_lookup_final_is_anticipated_witness :
  severity_row (with_service sample_env (λ _ _, RequestFailed Timeout)) fomc_scored []
  = (Ok (Some 3.96%float, 3.96%float), [row_request sample_env fomc_scored]).
Proof.
  rewrite (failed_lookup_final_is_anticipated
             (with_service sample_env (λ _ _, RequestFailed Timeout)) fomc_scored []
             eq_refl eq_refl (failed_request Timeout)).
  vm_compute. reflexivity.
Defined.

(** ** Keywords and the domain factor *)

Lemma string_app_assoc (a b c : string) : (a +:+ b) +:+ c = a +:+ b +:+ c.
Proof.
  induction a as [|x a IH]; [done|].
  change (String x ((a +:+ b) +:+ c) = String x (a +:+ b +:+ c)). by rewrite IH.
Qed.

Lemma lower_app (a b : string) : lower (a +:+ b) = lower a +:+ lower b.
Proof.
  induction a as [|x a IH]; [done|].
  change (String (lower_ascii x) (lower (a +:+ b))
          = String (lower_ascii x) (lower a +:+ lower b)). by rewrite IH.
Qed.

Lemma substring_of_trans (a b c : string) :
  substring_of a b → substring_of b c → substring_of a c.
Proof.
  intros (x & y & ->) (x' & y' & ->).
  exists (x' +:+ x), (y +:+ y'). by rewrite !string_app_assoc.
Qed.

Lemma substring_of_lower (a b : string) :
  substring_of a b → substring_of (lower a) (lower b).
Proof. intros (x & y & ->). exists (lower x), (lower y). by rewrite !lower_app. Qed.

(** X10: [contains_keyword] looks for the keywords as substrings, letter
    case ignored, so that a keyword is also found inside a longer word, and
    text added around a text never removes a hit; with no keyword the answer
    is false; a text that is not a string raises [AttributeError]. *)
Theorem contains_keyword_substring (keywords : list string) :
  (∀ text,
      contains_keyword (PStr text) keywords = Ok true ↔
      ∃ kw, kw ∈ keywords ∧ occurs_in kw text) ∧
  (∀ text text',
      substring_of text text' →
      contains_keyword (PStr text) keywords = Ok true →
      contains_keyword (PStr text') keywords = Ok true) ∧
  (∀ text, contains_keyword (PStr text) [] = Ok false) ∧
  (∀ v, (∀ text, v ≠ PStr text) → contains_keyword v keywords = Raise AttributeError).
Proof.
  assert (Hiff : ∀ text,
    contains_keyword (PStr text) keywords = Ok true ↔
    ∃ kw, kw ∈ keywords ∧ occurs_in kw text).
  { intros text. rewrite <- has_keyword_occurs. unfold contains_keyword, has_keyword.
    split; [by intros [= ->]|by intros ->]. }
  split; [exact Hiff|]. split; [|split].
  - intros text text' Hsub. rewrite !Hiff. intros (kw & Hin & Hkw).
    exists kw. split; [done|].
    eapply substring_of_trans; [exact Hkw|]. by apply substring_of_lower.
  - done.
  - intros v Hv. destruct v; try done. by destruct (Hv s).
Qed.

Lemma contains_keyword_substring_witness :
  occurs_in "war" "Forward Guidance" ∧
  contains_keyword (PStr "Forward Guidance") GEOPOLITICAL_KEYWORDS = Ok true ∧
  contains_keyword (PStr "BOE Forward Guidance Report") GEOPOLITICAL_KEYWORDS = Ok true ∧
  contains_keyword PNone GEOPOLITICAL_KEYWORDS = Raise AttributeError.
Proof.
  destruct (contains_keyword_substring GEOPOLITICAL_KEYWORDS) as (Hiff & Hmono & _ & Herr).
  assert (Hwar : occurs_in "war" "Forward Guidance") by (by exists "for", "d guidance").
  assert (Hhit : contains_keyword (PStr "Forward Guidance") GEOPOLITICAL_KEYWORDS = Ok true).
  { apply Hiff. exists "war". split; [|exact Hwar].
    unfold GEOPOLITICAL_KEYWORDS. rewrite !elem_of_cons. tauto. }
  split; [exact Hwar|]. split; [exact Hhit|]. split.
  - apply (Hmono "Forward Guidance"); [by exists "BOE ", " Report"|exact Hhit].
  - apply Herr. intros text. discriminate.
Defined.

(** X11: the keyword "mining output" of [COMMODITY_KEYWORDS] never changes
    the answer: a text in which it occurs has "mining" as well. *)
Theorem mining_output_is_redundant (text : pyval) :
  contains_keyword text COMMODITY_KEYWORDS
  = contains_keyword text ["mining"; "reserves"; "IMF"; "gold supply"].
Proof.
  destruct text as [| | | |s| |]; try reflexivity.
  unfold contains_keyword, COMMODITY_KEYWORDS. cbn [existsb]. f_equal.
  destruct (str_in (lower "mining output") (lower s)) eqn:Hlong; [|done].
  apply str_in_substring in Hlong.
  assert (Hshort : substring_of (lower "mining") (lower s)).
  { eapply substring_of_trans; [|exact Hlong]. by exists EmptyString, " output". }
  apply str_in_substring in Hshort. by rewrite Hshort.
Qed.

Lemma category_factor_cases (c : string) :
  category_factor c = 1.0%float ∨ category_factor c = 1.2%float ∨
  category_factor c = 1.15%float.
Proof.
  unfold category_factor.
  destruct (String.eqb c "NFP") eqn:Hnfp.
  { apply String.eqb_eq in Hnfp as ->. right. left. vm_compute. reflexivity. }
  destruct (String.eqb c "Inflation") eqn:Hinf.
  { apply String.eqb_eq in Hinf as ->. right. right. vm_compute. reflexivity. }
  destruct (bool_decide _); [right; left|left]; vm_compute; reflexivity.
Qed.

(** X12: with a [headline] cell that is a string, [domain_factor] returns a
    factor between 1.0 and 1.0 * 1.2 * 1.25 * 1.1 * 1.1; at most one of the
    three category tests multiplies, by 1.2 or by 1.15; with no keyword in the
    headline and no USD row in the batch the factor is that of the category
    alone. With a [headline] cell that is not a string, a NaN or a null for
    instance, it raises [AttributeError]. *)
Theorem domain_factor_bounds (df : list Row) (row : Row) :
  (∀ headline,
      row_getitem row "headline" = Ok (PStr headline) →
      ∃ factor,
        domain_factor df row = Ok factor ∧
        PrimFloat.leb 1.0 factor = true ∧
        PrimFloat.leb factor DOMAIN_FACTOR_MAX = true ∧
        (category_factor (category row) = 1.0%float ∨
         category_factor (category row) = 1.2%float ∨
         category_factor (category row) = 1.15%float) ∧
        (has_keyword headline GEOPOLITICAL_KEYWORDS = false →
         has_keyword headline COMMODITY_KEYWORDS = false →
         usd_in_batch df = false →
         factor = category_factor (category row))) ∧
  (∀ v,
      row_getitem row "headline" = Ok v →
      (∀ headline, v ≠ PStr headline) →
      domain_factor df row = Raise AttributeError).
Proof.
  split.
  - intros headline Hh. eexists. split; [by apply domain_factor_with_headline|].
    pose proof (category_factor_cases (category row)) as Hcat.
    split; [|split; [|split; [exact Hcat|]]].
    + destruct Hcat as [-> | [-> | ->]];
        destruct (negb _ && _), (has_keyword headline COMMODITY_KEYWORDS),
          (has_keyword headline GEOPOLITICAL_KEYWORDS); vm_compute; reflexivity.
    + destruct Hcat as [-> | [-> | ->]];
        destruct (negb _ && _), (has_keyword headline COMMODITY_KEYWORDS),
          (has_keyword headline GEOPOLITICAL_KEYWORDS); vm_compute; reflexivity.
    + intros -> -> ->. by rewrite andb_false_r.
  - intros v Hv Hns. unfold domain_factor. rewrite Hv.
    destruct v; cbn [mbind result_bind contains_keyword]; try reflexivity.
    by destruct (Hns s).
Qed.

Lemma domain_factor_bounds_witness :
  (∃ factor,
      domain_factor [sanctions_base] sanctions_base = Ok factor ∧
      PrimFloat.leb 1.0 factor = true ∧
      PrimFloat.leb factor DOMAIN_FACTOR_MAX = true ∧
      (category_factor "Other" = 1.0%float ∨ category_factor "Other" = 1.2%float ∨
       category_factor "Other" = 1.15%float) ∧
      (has_keyword "New Sanctions Hit Gold Mining Output" GEOPOLITICAL_KEYWORDS = false →
       has_keyword "New Sanctions Hit Gold Mining Output" COMMODITY_KEYWORDS = false →
       usd_in_batch [sanctions_base] = false →
       factor = category_factor "Other")) ∧
  domain_factor [nan_headline_base] nan_headline_base = Raise AttributeError.
Proof.
  split.
  - apply (proj1 (domain_factor_bounds [sanctions_base] sanctions_base)
             "New Sanctions Hit Gold Mining Output").
    reflexivity.
  - apply (proj2 (domain_factor_bounds [nan_headline_base] nan_headline_base)
             (PFloat PrimFloat.nan)); [reflexivity|].
    intros headline. discriminate.
Defined.

(** ** The time normalizer on every input *)

Lemma no_space_app (a b : string) : no_space (a +:+ b) = no_space a && no_space b.
Proof.
  induction a as [|x a IH]; [done|].
  change (negb (isspace x) && no_space (a +:+ b)
          = negb (isspace x) && no_space a && no_space b).
  by rewrite IH, andb_assoc.
Qed.

(** The tokens of [str.split] are not empty and hold no white space. *)
Lemma split_go_tokens (cur s : string) :
  no_space cur = true →
  Forall (λ token, token ≠ EmptyString ∧ no_space token = true) (split_go cur s).
Proof.
  revert cur. induction s as [|c s IH]; intros cur Hcur; cbn [split_go].
  - destruct (String.eqb cur EmptyString) eqn:He; [constructor|].
    apply String.eqb_neq in He. by repeat constructor.
  - destruct (isspace c) eqn:Hc.
    + destruct (String.eqb cur EmptyString) eqn:He; [by apply IH|].
      apply String.eqb_neq in He. constructor; [done|by apply IH].
    + apply IH. rewrite no_space_app, Hcur. cbn. by rewrite Hc.
Qed.

Lemma split_tokens (s : string) :
  Forall (λ token, token ≠ EmptyString ∧ no_space token = true) (split s).
Proof. by apply split_go_tokens. Qed.

(** Where the first white space of a string is. *)
Lemma first_space_unique (a b x y : string) (c d : ascii) :
  no_space a = true → no_space b = true → isspace c = true → isspace d = true →
  a +:+ String c x = b +:+ String d y → a = b ∧ c = d ∧ x = y.
Proof.
  revert b. induction a as [|a0 a IH]; intros [|b0 b] Ha Hb Hc Hd H.
  - by injection H as -> ->.
  - injection H as -> _. cbn in Hb. by rewrite Hc in Hb.
  - injection H as -> _. cbn in Ha. by rewrite Hd in Ha.
  - injection H as -> H. cbn in Ha, Hb.
    apply andb_true_iff in Ha as [_ Ha]. apply andb_true_iff in Hb as [_ Hb].
    destruct (IH b Ha Hb Hc Hd H) as (-> & -> & ->). done.
Qed.

(** *** What the pattern of [strptime] consumes *)

Lemma elem_of_matcher_bind {A B} (m : matcher A) (k : A → matcher B) (s : string)
    (b : B) (rest : string) :
  (b, rest) ∈ (m ≫= k) s ↔ ∃ a r, (a, r) ∈ m s ∧ (b, rest) ∈ k a r.
Proof.
  unfold mbind, matcher_bind. induction (m s) as [|[a r] l IH]; cbn [map concat fst snd].
  - split; [by intros ?%elem_of_nil|]. by intros (a & r & ?%elem_of_nil & _).
  - rewrite elem_of_app, IH. split.
    + intros [H|(a' & r' & Hin & H)].
      * exists a, r. split; [by left|done].
      * exists a', r'. split; [by right|done].
    + intros (a' & r' & Hin & H). apply elem_of_cons in Hin as [[= -> ->]|Hin].
      * by left.
      * right. by exists a', r'.
Qed.

Lemma elem_of_matcher_ret {A} (a b : A) (s rest : string) :
  (b, rest) ∈ (mret a : matcher A) s ↔ b = a ∧ rest = s.
Proof.
  unfold mret, matcher_ret. rewrite list_elem_of_singleton.
  split; [by intros [= -> ->]|by intros [-> ->]].
Qed.

Lemma elem_of_alt {A} (m1 m2 : matcher A) (s : string) (x : A * string) :
  x ∈ alt m1 m2 s ↔ x ∈ m1 s ∨ x ∈ m2 s.
Proof. unfold alt. apply elem_of_app. Qed.

Lemma one_inv (cls : ascii → bool) (s : string) (c : ascii) (rest : string) :
  (c, rest) ∈ one cls s → s = String c rest ∧ cls c = true.
Proof.
  unfold one. destruct s as [|c' s]; [by intros ?%elem_of_nil|].
  destruct (cls c') eqn:Hc; [|by intros ?%elem_of_nil].
  by intros [= -> ->]%list_elem_of_singleton.
Qed.

Lemma two_inv (cls1 cls2 : ascii → bool) (s : string) (v : Z) (rest : string) :
  (v, rest) ∈ two cls1 cls2 s →
  ∃ a b, s = String a (String b rest) ∧ cls1 a = true ∧ cls2 b = true ∧
         v = 10 * digit_value a + digit_value b.
Proof.
  unfold two. intros H.
  apply elem_of_matcher_bind in H as (a & r1 & [-> Ha]%one_inv & H).
  apply elem_of_matcher_bind in H as (b & r2 & [-> Hb]%one_inv & H).
  apply elem_of_matcher_ret in H as [-> ->]. by exists a, b.
Qed.

Lemma is_char_eq (c c' : ascii) : is_char c c' = true → c' = c.
Proof. unfold is_char. by intros ->%Ascii.eqb_eq. Qed.

Lemma digit_isdigit (c : ascii) : isdigit c = true → 0 ≤ digit_value c ≤ 9.
Proof.
  unfold isdigit, digit_value. intros [H1 H2]%andb_true_iff.
  apply N.leb_le in H1, H2. lia.
Qed.

Lemma digit_between (lo hi c : ascii) :
  between lo hi c = true → digit_value lo ≤ digit_value c ≤ digit_value hi.
Proof.
  unfold between, digit_value. intros [H1 H2]%andb_true_iff.
  apply N.leb_le in H1, H2. lia.
Qed.

Lemma digit_no_space (c : ascii) : 0 ≤ digit_value c ≤ 9 → isspace c = false.
Proof.
  unfold digit_value. intros Hc. destruct (isspace c) eqn:Hs; [|done].
  unfold isspace in Hs.
  apply orb_true_iff in Hs as [Hs|Hs]; apply andb_true_iff in Hs as [H1 H2];
    apply N.leb_le in H1, H2; lia.
Qed.

Lemma isspace_lower_ascii (c : ascii) : isspace (lower_ascii c) = isspace c.
Proof. destruct c as [[] [] [] [] [] [] [] []]; reflexivity. Qed.

Lemma no_space_lower (s : string) : no_space (lower s) = no_space s.
Proof.
  induction s as [|c s IH]; [done|]. cbn [lower no_space].
  by rewrite isspace_lower_ascii, IH.
Qed.

Lemma word_inv (w s : string) (u : unit) (rest : string) :
  (u, rest) ∈ word w s → ∃ p, s = p +:+ rest ∧ lower p = lower w.
Proof.
  revert s. induction w as [|a w IH]; intros s H; cbn [word] in H.
  - apply list_elem_of_singleton in H as [= _ ->]. by exists EmptyString.
  - destruct s as [|b s]; [by apply elem_of_nil in H|].
    destruct (Ascii.eqb (lower_ascii a) (lower_ascii b)) eqn:Hab;
      [|by apply elem_of_nil in H].
    apply Ascii.eqb_eq in Hab. destruct (IH _ H) as (p & -> & Hp).
    exists (String b p). split; [done|]. cbn [lower]. by rewrite Hp, Hab.
Qed.

Lemma names_from_inv (i : Z) (names : list string) (s : string) (v : Z) (rest : string) :
  (v, rest) ∈ names_from i names s →
  i ≤ v < i + Z.of_nat (length names) ∧
  ∃ n p, n ∈ names ∧ s = p +:+ rest ∧ lower p = lower n.
Proof.
  revert i. induction names as [|n names IH]; intros i H; cbn [names_from] in H.
  - by apply elem_of_nil in H.
  - apply elem_of_alt in H as [H|H].
    + apply elem_of_matcher_bind in H as (u & r & Hw & H).
      apply elem_of_matcher_ret in H as [-> ->].
      destruct (word_inv _ _ _ _ Hw) as (p & -> & Hp).
      split; [cbn [length]; lia|]. exists n, p. split; [by left|done].
    + destruct (IH _ H) as (Hv & n' & p & Hn & -> & Hp).
      split; [cbn [length]; lia|]. exists n', p. split; [by right|done].
Qed.

Lemma re_b_inv (s : string) (v : Z) (rest : string) :
  (v, rest) ∈ re_b s → 1 ≤ v ≤ 12 ∧ ∃ p, s = p +:+ rest ∧ no_space p = true.
Proof.
  unfold re_b. intros (Hv & n & p & Hn & -> & Hp)%names_from_inv.
  split; [cbn [a_month length] in Hv; lia|]. exists p. split; [done|].
  rewrite <- no_space_lower, Hp.
  unfold a_month in Hn. repeat (apply elem_of_cons in Hn as [->|Hn]; [reflexivity|]).
  by apply elem_of_nil in Hn.
Qed.

Lemma re_d_inv (s : string) (v : Z) (rest : string) :
  (v, rest) ∈ re_d s →
  1 ≤ v ≤ 31 ∧ ((∃ p, s = p +:+ rest ∧ no_space p = true) ∨ ∃ r, s = String " " r).
Proof.
  unfold re_d. intros H. repeat apply elem_of_alt in H as [H|H].
  - apply two_inv in H as (a & b & -> & ->%is_char_eq & Hb%digit_between & ->).
    change (digit_value "0") with 0 in Hb. change (digit_value "1") with 1 in Hb.
    change (digit_value "3") with 3. split; [lia|]. left. exists (String "3" (String b EmptyString)).
    split; [done|]. cbn [no_space]. rewrite (digit_no_space b) by lia. reflexivity.
  - apply two_inv in H as (a & b & -> & Ha%digit_between & Hb%digit_isdigit & ->).
    change (digit_value "1") with 1 in Ha. change (digit_value "2") with 2 in Ha.
    split; [lia|]. left. exists (String a (String b EmptyString)).
    split; [done|]. cbn [no_space]. by rewrite !digit_no_space by lia.
  - apply two_inv in H as (a & b & -> & ->%is_char_eq & Hb%digit_between & ->).
    change (digit_value "1") with 1 in Hb. change (digit_value "9") with 9 in Hb.
    change (digit_value "0") with 0. split; [lia|]. left. exists (String "0" (String b EmptyString)).
    split; [done|]. cbn [no_space]. rewrite (digit_no_space b) by lia. reflexivity.
  - apply elem_of_matcher_bind in H as (a & r & [-> Ha%digit_between]%one_inv & H).
    apply elem_of_matcher_ret in H as [-> ->].
    change (digit_value "1") with 1 in Ha. change (digit_value "9") with 9 in Ha.
    split; [lia|]. left. exists (String a EmptyString).
    split; [done|]. cbn [no_space]. by rewrite digit_no_space by lia.
  - apply elem_of_matcher_bind in H as (a & r & [-> ->%is_char_eq]%one_inv & H).
    apply elem_of_matcher_bind in H as (b & r' & [-> Hb%digit_between]%one_inv & H).
    apply elem_of_matcher_ret in H as [-> ->].
    change (digit_value "1") with 1 in Hb. change (digit_value "9") with 9 in Hb.
    split; [lia|]. right. by eexists.
Qed.

Lemma re_I_inv (s : string) (v : Z) (rest : string) :
  (v, rest) ∈ re_I s → 1 ≤ v ≤ 12.
Proof.
  unfold re_I. intros H. repeat apply elem_of_alt in H as [H|H].
  - apply two_inv in H as (a & b & -> & ->%is_char_eq & Hb%digit_between & ->).
    change (digit_value "0") with 0 in Hb. change (digit_value "2") with 2 in Hb.
    change (digit_value "1") with 1. lia.
  - apply two_inv in H as (a & b & -> & ->%is_char_eq & Hb%digit_between & ->).
    change (digit_value "1") with 1 in Hb. change (digit_value "9") with 9 in Hb.
    change (digit_value "0") with 0. lia.
  - apply elem_of_matcher_bind in H as (a & r & [-> Ha%digit_between]%one_inv & H).
    apply elem_of_matcher_ret in H as [-> ->].
    change (digit_value "1") with 1 in Ha. change (digit_value "9") with 9 in Ha. lia.
Qed.

Lemma re_M_inv (s : string) (v : Z) (rest : string) :
  (v, rest) ∈ re_M s → 0 ≤ v ≤ 59.
Proof.
  unfold re_M. intros [H|H]%elem_of_alt.
  - apply two_inv in H as (a & b & -> & Ha%digit_between & Hb%digit_isdigit & ->).
    change (digit_value "0") with 0 in Ha. change (digit_value "5") with 5 in Ha. lia.
  - unfold digit in H.
    apply elem_of_matcher_bind in H as (a & r & [-> Ha%digit_isdigit]%one_inv & H).
    apply elem_of_matcher_ret in H as [-> ->]. lia.
Qed.

Lemma spaces1_inv (s : string) (u : unit) (rest : string) :
  (u, rest) ∈ spaces1 s → ∃ c r, s = String c r ∧ isspace c = true.
Proof.
  unfold spaces1. destruct s as [|c r]; [by intros ?%elem_of_nil|].
  destruct (isspace c) eqn:Hc; [|by intros ?%elem_of_nil]. by exists c, r.
Qed.

Lemma spaces1_one (c d : ascii) (r : string) :
  isspace c = true → isspace d = false →
  spaces1 (String c (String d r)) = [(tt, String d r)].
Proof. intros Hc Hd. unfold spaces1. rewrite Hc. cbn [spaces0]. by rewrite Hd. Qed.

Lemma re_Y_2024 (t : string) :
  re_Y (String "2" (String "0" (String "2" (String "4" (String " " t)))))
  = [(2024, String " " t)].
Proof. reflexivity. Qed.

Lemma full_str_unfold (month_str day_str time_str : string) :
  full_str month_str day_str time_str
  = month_str +:+ String " "
      ((day_str +:+ ",") +:+ String " "
         (String "2" (String "0" (String "2" (String "4" (String " " time_str)))))).
Proof. unfold full_str. by rewrite string_app_assoc. Qed.

(** The fields of every match of the pattern against the string that
    [convert_to_utc_ms] builds from two tokens. *)
Lemma format_regex_fields (month_str day_str time_str : string) (f : fields) (rest : string) :
  no_space month_str = true → no_space day_str = true → day_str ≠ EmptyString →
  (f, rest) ∈ format_regex (full_str month_str day_str time_str) →
  f_Y f = 2024 ∧ 1 ≤ f_b f ≤ 12 ∧ 1 ≤ f_d f ≤ 31 ∧ 1 ≤ f_I f ≤ 12 ∧ 0 ≤ f_M f ≤ 59.
Proof.
  intros Hm Hd Hne H. rewrite full_str_unfold in H. unfold format_regex in H.
  destruct day_str as [|d0 day']; [done|]. clear Hne.
  assert (Hd0 : isspace d0 = false).
  { cbn [no_space] in Hd. apply andb_true_iff in Hd as [Hd _]. by destruct (isspace d0). }
  apply elem_of_matcher_bind in H as (b & r1 & [Hb (p & Hp & Hpn)]%re_b_inv & H).
  apply elem_of_matcher_bind in H as (u1 & r2 & Hs1 & H).
  destruct (spaces1_inv _ _ _ Hs1) as (c1 & r1' & -> & Hc1).
  apply first_space_unique in Hp as (<- & <- & <-); [|done..].
  change ((String d0 day' +:+ ",") +:+ ?x) with (String d0 ((day' +:+ ",") +:+ x)) in Hs1.
  rewrite spaces1_one in Hs1 by done.
  apply list_elem_of_singleton in Hs1 as [= _ ->].
  apply elem_of_matcher_bind in H as (d & r3 & [Hdv Hpd]%re_d_inv & H).
  destruct Hpd as [(p2 & Hp2 & Hp2n)|(r & [= -> _])]; [|done].
  apply elem_of_matcher_bind in H as (comma & r4 & [-> ->%is_char_eq]%one_inv & H).
  apply elem_of_matcher_bind in H as (u2 & r5 & Hs2 & H).
  destruct (spaces1_inv _ _ _ Hs2) as (c4 & r4' & -> & Hc4).
  change (String d0 ((day' +:+ ",") +:+ ?x)) with ((String d0 day' +:+ ",") +:+ x) in Hp2.
  change (p2 +:+ String "," (String c4 r4')) with (p2 +:+ "," +:+ String c4 r4') in Hp2.
  rewrite <- (string_app_assoc p2) in Hp2.
  apply first_space_unique in Hp2 as (_ & <- & <-);
    [|rewrite no_space_app; by rewrite ?Hd, ?Hp2n..|done|done].
  rewrite spaces1_one in Hs2 by done.
  apply list_elem_of_singleton in Hs2 as [= _ ->].
  apply elem_of_matcher_bind in H as (Y & r6 & HY & H).
  rewrite re_Y_2024 in HY. apply list_elem_of_singleton in HY as [= -> ->].
  apply elem_of_matcher_bind in H as (u3 & r7 & _ & H).
  apply elem_of_matcher_bind in H as (I & r8 & HI%re_I_inv & H).
  apply elem_of_matcher_bind in H as (colon & r9 & _ & H).
  apply elem_of_matcher_bind in H as (M & r10 & HM%re_M_inv & H).
  apply elem_of_matcher_bind in H as (pm & r11 & _ & H).
  apply elem_of_matcher_ret in H as [-> ->]. done.
Qed.

Lemma strptime_Ok_inv (data_string : string) (dt : datetime) :
  strptime data_string = Ok dt →
  ∃ f rest,
    (f, rest) ∈ format_regex data_string ∧
    1 ≤ f_Y f ∧ f_d f ≤ days_in_month (f_Y f) (f_b f) ∧
    dt = {| year := f_Y f; month := f_b f; day := f_d f;
            hour := hour24 (f_I f) (f_p f); minute := f_M f |}.
Proof.
  unfold strptime. destruct (format_regex data_string) as [|[f rest] l]; [done|].
  destruct (negb _); [done|].
  destruct ((1 <=? f_Y f) && (f_d f <=? days_in_month (f_Y f) (f_b f))) eqn:Hok; [|done].
  intros [= <-]. apply andb_true_iff in Hok as [HY Hd].
  exists f, rest. split; [by left|]. split; [lia|]. split; [lia|done].
Qed.

Lemma days_from_civil_day (y m d : Z) :
  days_from_civil y m d = days_from_civil y m 1 + (d - 1).
Proof. unfold days_from_civil. lia. Qed.

Lemma hour24_range (I : Z) (pm : bool) : 1 ≤ I ≤ 12 → 0 ≤ hour24 I pm ≤ 23.
Proof. unfold hour24. intros HI. destruct pm, (Z.eqb_spec I 12); lia. Qed.

(** Every time the adapter returns is a whole minute of the year 2024. *)
Lemma convert_to_utc_ms_range (date_str time_str : string) (ms : Z) :
  convert_to_utc_ms date_str time_str = Ok (Some ms) →
  YEAR_2024_FIRST_MS ≤ ms ≤ YEAR_2024_LAST_MS ∧ ms mod 60000 = 0.
Proof.
  unfold convert_to_utc_ms. pose proof (split_tokens date_str) as Htok.
  destruct (split date_str) as [|weekday [|month_str [|day_str rest]]]; try done.
  apply Forall_cons in Htok as [_ Htok].
  apply Forall_cons in Htok as [[_ Hm] Htok].
  apply Forall_cons in Htok as [[Hne Hd] _].
  destruct (strptime _) as [dt|] eqn:Hs; [|done]. cbn. intros [= <-].
  apply strptime_Ok_inv in Hs as (f & r & Hf & _ & Hday & ->).
  apply format_regex_fields in Hf as (HY & Hb & Hdv & HI & HM); [|done..].
  rewrite HY in Hday. unfold timestamp_ms. cbn [year month day hour minute].
  rewrite HY, days_from_civil_day.
  pose proof (hour24_range (f_I f) (f_p f) HI) as Hh.
  unfold YEAR_2024_FIRST_MS, YEAR_2024_LAST_MS.
  split.
  - assert (Hcases : f_b f = 1 ∨ f_b f = 2 ∨ f_b f = 3 ∨ f_b f = 4 ∨ f_b f = 5 ∨
                     f_b f = 6 ∨ f_b f = 7 ∨ f_b f = 8 ∨ f_b f = 9 ∨ f_b f = 10 ∨
                     f_b f = 11 ∨ f_b f = 12) by lia.
    repeat destruct Hcases as [Hcase|Hcases]; try rename Hcases into Hcase;
      rewrite Hcase in Hday |- *; vm_compute in Hday;
      match goal with
      | |- context [days_from_civil 2024 ?m 1] =>
          let v := eval vm_compute in (days_from_civil 2024 m 1) in
          change (days_from_civil 2024 m 1) with v
      end; lia.
  - set (days := days_from_civil 2024 (f_b f) 1 + (f_d f - 1)).
    replace ((days * 86400 + hour24 (f_I f) (f_p f) * 3600 + f_M f * 60) * 1000)
      with ((days * 1440 + hour24 (f_I f) (f_p f) * 60 + f_M f) * 60000) by lia.
    apply Z_mod_mult.
Qed.

Lemma window_representable_2024 (ms : Z) :
  YEAR_2024_FIRST_MS ≤ ms ≤ YEAR_2024_LAST_MS → window_representable ms = true.
Proof.
  unfold YEAR_2024_FIRST_MS, YEAR_2024_LAST_MS, window_representable, DATETIME_MIN_MS,
    DATETIME_MAX_MS, DAY_MS.
  intros Hms. apply andb_true_iff. split; apply Z.leb_le; lia.
Qed.

(** X13: the three outcomes of [convert_to_utc_ms]. It returns the null
    marker exactly when the date label has fewer than three tokens; otherwise
    it raises [ValueError], or returns a time that is a whole minute of the
    year 2024, whatever the labels hold, so that the window of a day around it
    that [fetch_news_coverage] builds is a valid [datetime] range. *)
Theorem convert_to_utc_ms_outcomes (date_str time_str : string) :
  (convert_to_utc_ms date_str time_str = Ok None ↔ (length (split date_str) < 3)%nat) ∧
  (∀ e,
      convert_to_utc_ms date_str time_str = Raise e →
      e = ValueError ∧ (3 ≤ length (split date_str))%nat) ∧
  (∀ ms,
      convert_to_utc_ms date_str time_str = Ok (Some ms) →
      YEAR_2024_FIRST_MS ≤ ms ≤ YEAR_2024_LAST_MS ∧ ms mod 60000 = 0 ∧
      window_representable ms = true).
Proof.
  split; [apply convert_to_utc_ms_few_tokens|]. split.
  - intros e (weekday & month_str & day_str & rest & Hparts & _ & ->)%convert_to_utc_ms_mismatch.
    split; [done|]. rewrite Hparts. cbn [length]. lia.
  - intros ms [Hrange Hmin]%convert_to_utc_ms_range.
    split; [done|]. split; [done|]. by apply window_representable_2024.
Qed.

Lemma convert_to_utc_ms_outcomes_witness :
  (YEAR_2024_FIRST_MS ≤ 1727857800000 ≤ YEAR_2024_LAST_MS ∧ 1727857800000 mod 60000 = 0 ∧
   window_representable 1727857800000 = true) ∧
  (ValueError = ValueError ∧ (3 ≤ length (split "Wed Feb 30"))%nat).
Proof.
  split.
  - apply (proj2 (proj2 (convert_to_utc_ms_outcomes "Wed Oct 2" "8:30am"))).
    vm_compute. reflexivity.
  - apply (proj1 (proj2 (convert_to_utc_ms_outcomes "Wed Feb 30" "8:30am"))).
    vm_compute. reflexivity.
Defined.

(** *** Where a run stops *)

Lemma compute_coverage_factor_raises_number (coverage_count : pyval) (e : exn) :
  compute_coverage_factor coverage_count = Raise e → is_number coverage_count = false.
Proof.
  unfold compute_coverage_factor. destruct (eq_zero coverage_count); [done|].
  destruct coverage_count as [|b|z|f|s|l|d]; cbn [between_1_and_5 mbind result_bind];
    try done.
  - by destruct b.
  - by destruct (_ && _).
  - by destruct (_ && _).
Qed.

Lemma severity_row_raise_inv (E : Env) (row : ScoredRow) (e : exn)
    (trace trace' : list request) :
  severity_row E row trace = (Raise e, trace') →
  future_event (base row) = false ∧
  ((window_representable (time_ms (base row)) = false ∧
    (e = ValueError ∨ e = OverflowError) ∧ trace' = trace) ∨
   (e = TypeError ∧ trace' = trace ++ [row_request E row] ∧
    is_number (coverage_count_of (http_get E trace (row_request E row))) = false)).
Proof.
  destruct (future_event (base row)) eqn:Hf.
  { by rewrite severity_row_future. }
  intros H. split; [done|].
  destruct (window_representable (time_ms (base row))) eqn:Hw.
  - right. rewrite severity_row_past in H by done.
    destruct (compute_coverage_factor _) as [cf|e'] eqn:Hcf; [done|].
    cbn in H. injection H as <- <-.
    split; [by eapply compute_coverage_factor_raises|].
    split; [done|]. by eapply compute_coverage_factor_raises_number.
  - left. destruct (severity_row_no_window E row trace Hf Hw) as (e' & He & Hraise).
    rewrite Hraise in H. by injection H as <- <-.
Qed.

(** The loop stops at the first row whose iteration raises. *)
Lemma severity_loop_raise_inv (E : Env) (rows : list ScoredRow) (e : exn)
    (trace trace' : list request) :
  severity_loop E rows trace = (Raise e, trace') →
  ∃ earlier row later sevs sent,
    rows = earlier ++ row :: later ∧
    severity_loop E earlier trace = (Ok sevs, sent) ∧
    severity_row E row sent = (Raise e, trace').
Proof.
  revert trace trace'. induction rows as [|row rows IH]; intros trace trace' H; [done|].
  cbn [severity_loop] in H. unfold mbind, prog_bind in H.
  destruct (severity_row E row trace) as [[sev|e'] tr1] eqn:Hrow.
  - fold (@mbind prog _) in H.
    destruct (severity_loop E rows tr1) as [[sevs|e'] tr2] eqn:Hloop; [done|].
    injection H as <- <-.
    destruct (IH _ _ Hloop) as (earlier & row' & later & sevs & sent & -> & Hearlier & Hraise).
    exists (row :: earlier), row', later, (sev :: sevs), sent.
    split; [done|]. split; [|done].
    cbn [severity_loop]. unfold mbind, prog_bind. rewrite Hrow.
    fold (@mbind prog _). by rewrite Hearlier.
  - injection H as <- <-. exists [], row, rows, [], trace. by rewrite Hrow.
Qed.

(** X14: how a run of [enrich_data] can fail. [ValueError], [KeyError]
    for the column [headline] and [AttributeError] are raised before the
    loop, with no request sent. In the loop only [TypeError] is raised, at
    the first past row for which the count that came back is not a number,
    after the requests of the past rows up to and including that row were
    sent. [OverflowError] is never raised: the times of the rows lie in
    2024. *)
Theorem enrich_data_failures (E : Env) (df : list RawEventRow) (e : exn)
    (trace trace' : list request) :
  enrich_data E df trace = (Raise e, trace') →
  (scored_frame E df = Raise e ∧ trace' = trace ∧
   (e = ValueError ∨ e = KeyError "headline" ∨ e = AttributeError)) ∨
  (e = TypeError ∧
   ∃ earlier row later,
     scored_frame E df = Ok (earlier ++ row :: later) ∧
     future_event (base row) = false ∧
     trace' = trace ++ (row_request E <$> past_rows (earlier ++ [row])) ∧
     is_number
       (coverage_count_of
          (http_get E (trace ++ (row_request E <$> past_rows earlier)) (row_request E row)))
     = false).
Proof.
  unfold enrich_data, mbind, prog_bind, lift. intros H.
  destruct (scored_frame E df) as [rows|e'] eqn:Hrows.
  - right.
    destruct (severity_loop E rows trace) as [[sevs|e'] tr] eqn:Hloop; [done|].
    injection H as <- <-.
    apply severity_loop_raise_inv in Hloop
      as (earlier & row & later & sevs & sent & -> & Hearlier & Hraise).
    apply severity_loop_trace in Hearlier as ->.
    apply severity_row_raise_inv in Hraise as [Hf [(Hw & _)|(-> & -> & Hnum)]].
    + exfalso. apply scored_frame_inv in Hrows.
      apply Forall_app in Hrows as [_ [Hinv _]%Forall_cons].
      pose proof (inv_time _ _ _ _ Hinv) as [Hrange _]%convert_to_utc_ms_range.
      apply window_representable_2024 in Hrange. congruence.
    + split; [done|]. exists earlier, row, later. split; [done|]. split; [done|].
      split; [|done].
      unfold past_rows. rewrite filter_app, fmap_app, app_assoc. f_equal.
      rewrite filter_cons, filter_nil, decide_True by done. done.
  - left. injection H as <- <-. split; [done|]. split; [done|].
    exact (scored_frame_raises _ _ _ Hrows).
Qed.

Lemma enrich_data_failures_witness :
  (scored_frame sample_env [fomc_row] = Raise (KeyError "headline") ∧
   ([] : list request) = [] ∧
   (KeyError "headline" = ValueError ∨ KeyError "headline" = KeyError "headline" ∨
    KeyError "headline" = AttributeError)) ∨
  (KeyError "headline" = TypeError ∧
   ∃ earlier row later,
     scored_frame sample_env [fomc_row] = Ok (earlier ++ row :: later) ∧
     future_event (base row) = false ∧
     [] = [] ++ (row_request sample_env <$> past_rows (earlier ++ [row])) ∧
     is_number
       (coverage_count_of
          (http_get sample_env ([] ++ (row_request sample_env <$> past_rows earlier))
             (row_request sample_env row)))
     = false).
Proof.
  apply (enrich_data_failures sample_env [fomc_row] (KeyError "headline") [] []).
  vm_compute. reflexivity.
Defined.

(** *** What a run returns *)

Lemma dropna_zip_rows (df : list RawEventRow) (times : list (option Z)) :
  Forall2 (λ row t, convert_to_utc_ms (date_label row) (time_label row) = Ok t) df times →
  (dropna (zip df times)).*1
  = filter (λ row, (3 ≤ length (split (date_label row)))%nat) df.
Proof.
  induction 1 as [|row t df times Ht _ IH]; [done|].
  cbn [zip zip_with]. rewrite filter_cons.
  destruct t as [t|].
  - change (dropna ((row, Some t) :: zip df times))
      with ((row, t) :: dropna (zip df times)).
    cbn [fmap list_fmap fst]. rewrite decide_True.
    + f_equal. exact IH.
    + destruct (decide (3 ≤ length (split (date_label row)))%nat) as [|Hlt]; [done|].
      assert (Hnone : convert_to_utc_ms (date_label row) (time_label row) = Ok None)
        by (apply convert_to_utc_ms_few_tokens; lia).
      congruence.
  - change (dropna ((row, None) :: zip df times)) with (dropna (zip df times)).
    apply convert_to_utc_ms_few_tokens in Ht. rewrite decide_False by lia. exact IH.
Qed.

Lemma normalize_rows (E : Env) (rows : list (RawEventRow * Z)) (frame : list Row) :
  Forall2 (λ rt r, normalize E rt = Ok r) rows frame → raw <$> frame = rows.*1.
Proof.
  induction 1 as [|rt r rows frame Hr _ IH]; [done|].
  cbn [fmap list_fmap]. apply normalize_inv in Hr as (-> & _). f_equal. exact IH.
Qed.

Lemma score_rows (df frame : list Row) (rows : list ScoredRow) :
  Forall2 (λ r row, score df r = Ok row) frame rows → base <$> rows = frame.
Proof.
  induction 1 as [|r row frame rows Hr _ IH]; [done|].
  cbn [fmap list_fmap]. rewrite IH. f_equal.
  unfold score in Hr. destruct (domain_factor df r); [|done].
  cbn in Hr. by injection Hr as <-.
Qed.

(** The rows the loop iterates over: the input rows that pass the two
    filters and whose date label has three tokens, in input order. *)
Lemma scored_frame_rows (E : Env) (df : list RawEventRow) (rows : list ScoredRow) :
  scored_frame E df = Ok rows →
  raw ∘ base <$> rows
  = filter (λ row, (3 ≤ length (split (date_label row)))%nat) (filter_allowed df).
Proof.
  intros (times & frame & _ & Htimes & Hframe & _ & H)%scored_frame_Ok_inv.
  apply mapM_Ok_inv in Htimes, Hframe, H.
  rewrite list_fmap_compose, (score_rows _ _ _ H), (normalize_rows _ _ _ Hframe).
  by apply dropna_zip_rows.
Qed.

Lemma project_headlines (rows : list ScoredRow) (sevs : list (option float * float)) :
  length rows = length sevs →
  out_headline <$> zip_with project rows sevs = event <$> (raw ∘ base <$> rows).
Proof.
  revert sevs. induction rows as [|row rows IH]; intros [|sev sevs] Hlen; try done.
  cbn [zip_with fmap list_fmap]. f_equal. apply IH. cbn in Hlen. lia.
Qed.

(** X15: when [enrich_data] returns, it returns one record for each input
    row whose currency and impact colour are allowed and whose date label has
    at least three tokens, in the order of the input; the headline of the
    record is the [event] text of the row. Rows of other currencies or
    colours and rows with a shorter date label are dropped silently. *)
Theorem enrich_data_rows (E : Env) (df : list RawEventRow) (out : list EnrichedEventRecord)
    (trace trace' : list request) :
  enrich_data E df trace = (Ok out, trace') →
  out_headline <$> out
  = event <$> filter (λ row, (3 ≤ length (split (date_label row)))%nat) (filter_allowed df) ∧
  (length out ≤ length df)%nat ∧
  (Forall (λ row, currency row ∈ ALLOWED_CURRENCY_CODES ∧ impact row ∈ ALLOWED_IMPACT_COLORS ∧
                  (3 ≤ length (split (date_label row)))%nat) df →
   length out = length df).
Proof.
  intros (rows & sevs & Hrows & Hloop & ->)%enrich_data_ok_inv.
  apply severity_loop_ok_inv, Forall2_length in Hloop.
  apply scored_frame_rows in Hrows.
  assert (Hout : out_headline <$> zip_with project rows sevs
                 = event <$> filter (λ row, (3 ≤ length (split (date_label row)))%nat)
                               (filter_allowed df)).
  { rewrite project_headlines by done. by rewrite Hrows. }
  assert (Hlen : length (zip_with project rows sevs)
                 = length (filter (λ row, (3 ≤ length (split (date_label row)))%nat)
                             (filter_allowed df))).
  { by rewrite <- (length_fmap out_headline), Hout, length_fmap. }
  split; [exact Hout|]. rewrite Hlen. unfold filter_allowed. split.
  - etrans; [apply length_filter|]. etrans; [apply length_filter|]. apply length_filter.
  - intros Hall. f_equal. clear Hrows Hout Hlen.
    induction Hall as [|row df' (Hc & Hi & Hd) _ IH]; [done|].
    rewrite (filter_cons _ row), decide_True by done.
    rewrite (filter_cons _ row), decide_True by done.
    rewrite (filter_cons _ row), decide_True by done.
    by rewrite IH.
Qed.

Lemma enrich_data_rows_witness :
  out_headline <$> [fomc_record false (Some 4.3560000000000008%float)]
  = event <$> filter (λ row, (3 ≤ length (split (date_label row)))%nat)
                (filter_allowed
                   [with_headline short_date_row "ISM Services PMI";
                    with_headline fomc_row "Fed FOMC Rate Decision"]) ∧
  (length [fomc_record false (Some 4.3560000000000008%float)]
   ≤ length [with_headline short_date_row "ISM Services PMI";
             with_headline fomc_row "Fed FOMC Rate Decision"])%nat ∧
  (Forall (λ row, currency row ∈ ALLOWED_CURRENCY_CODES ∧ impact row ∈ ALLOWED_IMPACT_COLORS ∧
                  (3 ≤ length (split (date_label row)))%nat)
     [with_headline short_date_row "ISM Services PMI";
      with_headline fomc_row "Fed FOMC Rate Decision"] →
   length [fomc_record false (Some 4.3560000000000008%float)]
   = length [with_headline short_date_row "ISM Services PMI";
             with_headline fomc_row "Fed FOMC Rate Decision"]).
Proof.
  apply (enrich_data_rows sample_env
           [with_headline short_date_row "ISM Services PMI";
            with_headline fomc_row "Fed FOMC Rate Decision"]
           [fomc_record false (Some 4.3560000000000008%float)]
           [] [row_request sample_env fomc_scored]).
  vm_compute. reflexivity.
Defined.

Lemma infer_category_values (headline : string) :
  infer_category headline
  ∈ ["NFP"; "GDP"; "RateDecision"; "Inflation"; "MonetaryPolicy"; "Other"].
Proof.
  unfold infer_category, EVENT_CATEGORIES. cbn [infer_category_from].
  repeat (destruct (str_in _ _); [rewrite !elem_of_cons; tauto|]).
  rewrite !elem_of_cons. tauto.
Qed.

Lemma severity_of_allowed (c category : string) (level : Z) :
  c ∈ ALLOWED_IMPACT_COLORS →
  COLOR_SEVERITY_MAP !! c = Some (category, level) →
  (category, level) ∈ [("High", 3); ("Medium", 2); ("Low", 1)].
Proof.
  intros Hc%allowed_color_cases. rewrite !elem_of_cons.
  destruct Hc as [-> | [-> | [-> | ->]]]; vm_compute; intros [= <- <-]; tauto.
Qed.

(** X16: the fields of every record [enrich_data] returns. The severity
    is one of High 3, Medium 2 and Low 1; the category is that of the
    headline and one of six names; the sentiment score is the compound score
    of the headline; the historical volatility is 0.0; the time is a minute
    of the year 2024; and the final severity is null exactly on the records
    marked as future events. *)
Theorem enrich_data_record_fields (E : Env) (df : list RawEventRow)
    (out : list EnrichedEventRecord) (trace trace' : list request) (o : EnrichedEventRecord) :
  enrich_data E df trace = (Ok out, trace') →
  o ∈ out →
  (out_severity_category o, out_severity_level o) ∈ [("High", 3); ("Medium", 2); ("Low", 1)] ∧
  out_category o = infer_category (out_headline o) ∧
  out_category o ∈ ["NFP"; "GDP"; "RateDecision"; "Inflation"; "MonetaryPolicy"; "Other"] ∧
  out_sentiment_score o = polarity_compound E (out_headline o) ∧
  out_historical_volatility o = 0.0%float ∧
  YEAR_2024_FIRST_MS ≤ out_time_ms o ≤ YEAR_2024_LAST_MS ∧
  out_time_ms o mod 60000 = 0 ∧
  (final_severity o = None ↔ out_future_event o = true).
Proof.
  intros H [i Ho]%list_elem_of_lookup.
  destruct (enrich_data_lookup _ _ _ _ _ _ _ H Ho)
    as (rows & row & sev & tr & tr' & Hrows & Hrow & Hinv & Hstep & ->).
  cbn [project out_severity_category out_severity_level out_category out_headline
       out_sentiment_score out_historical_volatility out_time_ms final_severity
       out_future_event fst].
  pose proof (inv_allowed _ _ _ _ Hinv) as (_ & _ & Hc)%filter_allowed_elem.
  pose proof (inv_time _ _ _ _ Hinv) as [Hrange Hminute]%convert_to_utc_ms_range.
  split; [exact (severity_of_allowed _ _ _ Hc (inv_severity _ _ _ _ Hinv))|].
  split; [apply Hinv|].
  split; [rewrite (inv_category _ _ _ _ Hinv); apply infer_category_values|].
  split; [apply Hinv|]. split; [apply Hinv|]. split; [exact Hrange|].
  split; [exact Hminute|].
  destruct (future_event (base row)) eqn:Hf.
  - rewrite severity_row_future in Hstep by done. by injection Hstep as <- _.
  - apply severity_row_past_ok_inv in Hstep as (_ & _ & cf & _ & ->); [|done].
    cbn [fst]. split; discriminate.
Qed.

Lemma enrich_data_record_fields_witness :
  (out_severity_category (fomc_record false (Some 4.3560000000000008%float)),
   out_severity_level (fomc_record false (Some 4.3560000000000008%float)))
  ∈ [("High", 3); ("Medium", 2); ("Low", 1)] ∧
  final_severity (fomc_record false (Some 4.3560000000000008%float)) ≠ None.
Proof.
  destruct (enrich_data_record_fields sample_env
              [with_headline fomc_row "Fed FOMC Rate Decision"]
              [fomc_record false (Some 4.3560000000000008%float)]
              [] [row_request sample_env fomc_scored]
              (fomc_record false (Some 4.3560000000000008%float)))
    as (Hsev & _ & _ & _ & _ & _ & _ & Hfinal).
  - vm_compute. reflexivity.
  - by left.
  - split; [exact Hsev|]. intros Hnone. apply Hfinal in Hnone. discriminate Hnone.
Defined.

(** *** A frame without a [headline] column *)

Lemma dropna_zip_nil (df : list RawEventRow) (times : list (option Z)) :
  Forall2 (λ row t, convert_to_utc_ms (date_label row) (time_label row) = Ok t) df times →
  dropna (zip df times) = [] →
  Forall (λ row, (length (split (date_label row)) < 3)%nat) df.
Proof.
  intros Htimes Hnil. pose proof (dropna_zip_rows _ _ Htimes) as Hrows.
  rewrite Hnil in Hrows. apply Forall_forall. intros row Hrow.
  destruct (decide (3 ≤ length (split (date_label row)))%nat) as [Hge|]; [|lia].
  assert (Hin : row ∈ filter (λ row, (3 ≤ length (split (date_label row)))%nat) df)
    by (by apply list_elem_of_filter).
  rewrite <- Hrows in Hin. by apply elem_of_nil in Hin.
Qed.

(** X17: on a frame whose five columns hold strings and that has no
    column labelled [headline], a run of [enrich_data] never returns and
    never asks the news service. It raises [ValueError] when no row has an
    allowed currency and colour, when the time of an allowed row does not
    parse, and when no allowed row has a date label of three tokens; in every
    other case it raises [KeyError] for [headline]. *)
Theorem enrich_data_without_headline (E : Env) (df : list RawEventRow)
    (trace : list request) :
  Forall (λ row, ∀ v, ("headline", v) ∉ other row) df →
  (enrich_data E df trace = (Raise ValueError, trace) ∧
   (filter_allowed df = [] ∨
    (∃ row, row ∈ filter_allowed df ∧
            convert_to_utc_ms (date_label row) (time_label row) = Raise ValueError) ∨
    Forall (λ row, (length (split (date_label row)) < 3)%nat) (filter_allowed df))) ∨
  (enrich_data E df trace = (Raise (KeyError "headline"), trace) ∧
   ∃ row, row ∈ filter_allowed df ∧ (3 ≤ length (split (date_label row)))%nat).
Proof.
  intros Hno.
  destruct (decide (filter_allowed df = [])) as [Hnil|Hne].
  { left. split; [|by left].
    unfold enrich_data, mbind, prog_bind, lift, scored_frame. by rewrite Hnil. }
  destruct (mapM (λ row, convert_to_utc_ms (date_label row) (time_label row))
              (filter_allowed df)) as [times|e] eqn:Htimes.
  - destruct (dropna (zip (filter_allowed df) times)) as [|rt rows] eqn:Hrows.
    + left. split.
      * unfold enrich_data, mbind, prog_bind, lift, scored_frame.
        rewrite apply_rows_mapM, Htimes by done. cbn [mbind result_bind].
        by rewrite Hrows.
      * right. right. apply mapM_Ok_inv in Htimes. by eapply dropna_zip_nil.
    + right. pose proof (mapM_Ok_inv _ _ _ Htimes) as Hall. split.
      * apply (enrich_data_KeyError E df (rt :: rows) times trace Htimes Hrows); [done|].
        apply Forall_forall. intros [raw t] Hin v. rewrite <- Hrows in Hin.
        apply dropna_elem in Hin.
        apply (Forall2_zip_elem _ _ _ _ _ Hall) in Hin as [Hin _].
        apply filter_allowed_elem in Hin as [Hin _].
        by apply (proj1 (Forall_forall _ _) Hno).
      * assert (Hin : rt ∈ dropna (zip (filter_allowed df) times))
          by (rewrite Hrows; by left).
        destruct rt as [raw t]. apply dropna_elem in Hin.
        apply (Forall2_zip_elem _ _ _ _ _ Hall) in Hin as [Hin Ht].
        exists raw. split; [done|].
        destruct (decide (3 ≤ length (split (date_label raw)))%nat) as [|Hlt]; [done|].
        assert (Hnone : convert_to_utc_ms (date_label raw) (time_label raw) = Ok None)
          by (apply convert_to_utc_ms_few_tokens; lia).
        congruence.
  - left. apply mapM_Raise_inv in Htimes as (row & Hin & Hr).
    pose proof Hr as (? & ? & ? & ? & _ & _ & ->)%convert_to_utc_ms_mismatch.
    split; [by eapply enrich_data_raises_on_mismatch|]. right. left. by exists row.
Qed.

Lemma enrich_data_without_headline_witness :
  (enrich_data sample_env [short_date_row; fomc_row] [] = (Raise ValueError, []) ∧
   (filter_allowed [short_date_row; fomc_row] = [] ∨
    (∃ row, row ∈ filter_allowed [short_date_row; fomc_row] ∧
            convert_to_utc_ms (date_label row) (time_label row) = Raise ValueError) ∨
    Forall (λ row, (length (split (date_label row)) < 3)%nat)
      (filter_allowed [short_date_row; fomc_row]))) ∨
  (enrich_data sample_env [short_date_row; fomc_row] [] = (Raise (KeyError "headline"), []) ∧
   ∃ row, row ∈ filter_allowed [short_date_row; fomc_row] ∧
          (3 ≤ length (split (date_label row)))%nat).
Proof.
  apply (enrich_data_without_headline sample_env [short_date_row; fomc_row] []).
  repeat constructor; intros v Hin; by apply elem_of_nil in Hin.
Defined.

(** * The severity loop on every frame *)

(** ** The loop *)


Lemma severity_row_future_of (E : Env) (row : ScoredRow) (trace : list request) :
  future_event (base row) = true →
  severity_row E row trace = (Ok (None, anticipated_of E row), trace).
Proof.
  intros Hf. rewrite severity_row_future by done.
  by rewrite composite_no_coverage.
Qed.


Lemma severity_loop_cons (E : Env) (row : ScoredRow) (rows : list ScoredRow)
    (trace : list request) :
  severity_loop E (row :: rows) trace
  = match severity_row E row trace with
    | (Ok sev, sent) =>
        match severity_loop E rows sent with
        | (Ok sevs, sent') => (Ok (sev :: sevs), sent')
        | (Raise e, sent') => (Raise e, sent')
        end
    | (Raise e, sent) => (Raise e, sent)
    end.
Proof.
  cbn [severity_loop]. unfold mbind, prog_bind.
  destruct (severity_row E row trace) as [[sev|e] sent]; [|done].
  fold (@mbind prog _). by destruct (severity_loop E rows sent) as [[sevs|e] sent'].
Qed.

(** The pair that the loop appends for the row after [earlier]. *)
Lemma severity_loop_at (E : Env) (earlier later : list ScoredRow) (row : ScoredRow)
    (sevs : list (option float * float)) (trace trace' : list request) :
  severity_loop E (earlier ++ row :: later) trace = (Ok sevs, trace') →
  ∃ sev sent,
    sevs !! length earlier = Some sev ∧
    severity_row E row (trace ++ (row_request E <$> past_rows earlier)) = (Ok sev, sent).
Proof.
  revert sevs trace trace'. induction earlier as [|r earlier IH]; intros sevs trace trace' H.
  - cbn [app] in H. rewrite severity_loop_cons in H.
    destruct (severity_row E row trace) as [[sev|e] sent] eqn:Hrow; [|done].
    destruct (severity_loop E later sent) as [[sevs'|e] sent']; [|done].
    injection H as <- _. exists sev, sent. split; [done|].
    by rewrite app_nil_r.
  - rewrite <- app_comm_cons, severity_loop_cons in H.
    destruct (severity_row E r trace) as [[sev|e] sent] eqn:Hr; [|done].
    destruct (severity_loop E (earlier ++ row :: later) sent) as [[sevs'|e] sent'] eqn:Hloop;
      [|done].
    injection H as <- _.
    destruct (IH _ _ _ Hloop) as (sev' & sent'' & Hsev & Hrow).
    exists sev', sent''. split; [done|].
    rewrite (severity_row_ok_trace _ _ _ _ _ Hr) in Hrow.
    change (r :: earlier) with ([r] ++ earlier).
    unfold past_rows in *. by rewrite filter_app, fmap_app, app_assoc.
Qed.

Lemma severity_loop_length (E : Env) (rows : list ScoredRow)
    (sevs : list (option float * float)) (trace trace' : list request) :
  severity_loop E rows trace = (Ok sevs, trace') → length sevs = length rows.
Proof. intros H%severity_loop_ok_inv. symmetry. by eapply Forall2_length. Qed.


(** ** The lines before the loop *)

Lemma mapM_Ok_intro {A B} (f : A → result B) (l : list A) :
  Forall (λ x, ∃ y, f x = Ok y) l → ∃ k, mapM f l = Ok k.
Proof.
  induction 1 as [|x l [y Hy] _ [k Hk]]; [by exists []|].
  exists (y :: k). cbn. by rewrite Hy, Hk.
Qed.

Lemma row_getitem_headline_cell (row : Row) (headline : pyval) :
  headline_cell (raw row) = Some headline → row_getitem row "headline" = Ok headline.
Proof.
  rewrite row_getitem_headline. unfold headline_cell.
  destruct (list_find _ _) as [[i [k v]]|]; [|done]. cbn. by intros [= ->].
Qed.

Lemma kept_rows_filter_allowed (df : list RawEventRow) :
  kept_rows df ≠ [] → filter_allowed df ≠ [].
Proof. unfold kept_rows. intros Hne Hnil. by rewrite Hnil in Hne. Qed.

(** On a frame of [reaches_loop] every line before the loop returns. *)
Lemma scored_frame_returns (E : Env) (df : list RawEventRow) :
  reaches_loop df → ∃ rows, scored_frame E df = Ok rows.
Proof.
  intros [Htimes Hkept Hhead].
  pose proof (kept_rows_filter_allowed _ Hkept) as Hne.
  destruct (mapM_Ok_intro _ _ Htimes) as (times & Ht).
  pose proof (mapM_Ok_inv _ _ _ Ht) as Hall.
  assert (Hnorm : ∃ frame, mapM (normalize E) (dropna (zip (filter_allowed df) times))
                           = Ok frame).
  { apply mapM_Ok_intro, Forall_forall. intros [raw t] Hin%dropna_elem.
    apply (Forall2_zip_elem _ _ _ _ _ Hall) in Hin as [Hin _].
    by apply (normalize_allowed E df). }
  destruct Hnorm as (frame & Hframe).
  assert (Hraw : raw <$> frame = kept_rows df).
  { rewrite (normalize_rows E _ _ (mapM_Ok_inv _ _ _ Hframe)). by apply dropna_zip_rows. }
  assert (Hne' : frame ≠ []).
  { intros ->. by rewrite <- Hraw in Hkept. }
  assert (Hscore : ∃ rows, mapM (score frame) frame = Ok rows).
  { apply mapM_Ok_intro, Forall_forall. intros r Hr.
    assert (Hin : raw r ∈ kept_rows df).
    { rewrite <- Hraw. apply list_elem_of_fmap. by exists r. }
    destruct (proj1 (Forall_forall _ _) Hhead _ Hin) as (h & Hh).
    unfold score.
    rewrite (domain_factor_with_headline _ _ h) by by apply row_getitem_headline_cell.
    by eexists. }
  destruct Hscore as (rows & Hrows). exists rows.
  unfold scored_frame. rewrite apply_rows_mapM, Ht by done. cbn [mbind result_bind].
  rewrite Hframe. cbn [mbind result_bind]. by rewrite apply_rows_mapM.
Qed.




Lemma enrich_data_of_loop (E : Env) (df : list RawEventRow) (rows : list ScoredRow)
    (sevs : list (option float * float)) (trace trace' : list request) :
  scored_frame E df = Ok rows →
  severity_loop E rows trace = (Ok sevs, trace') →
  enrich_data E df trace = (Ok (zip_with project rows sevs), trace').
Proof.
  intros Hrows Hloop. unfold enrich_data, mbind, prog_bind, lift.
  by rewrite Hrows, Hloop.
Qed.

Lemma zip_with_project_lookup (rows : list ScoredRow) (sevs : list (option float * float))
    (i : nat) (row : ScoredRow) (sev : option float * float) :
  rows !! i = Some row → sevs !! i = Some sev →
  zip_with project rows sevs !! i = Some (project row sev).
Proof. intros Hrow Hsev. apply lookup_zip_with_Some. by exists row, sev. Qed.

Lemma zip_with_project_length (rows : list ScoredRow) (sevs : list (option float * float)) :
  length sevs = length rows → length (zip_with project rows sevs) = length rows.
Proof. intros Hlen. rewrite length_zip_with. lia. Qed.

(** ** Future events *)

Lemma lookup_middle {A} (l : list A) (i : nat) (x : A) :
  l !! i = Some x → ∃ earlier later, l = earlier ++ x :: later ∧ length earlier = i.
Proof.
  intros Hi. exists (take i l), (drop (S i) l).
  split; [by rewrite take_drop_middle|].
  apply length_take_le, Nat.lt_le_incl. by eapply lookup_lt_Some.
Qed.

Lemma severity_loop_future_at (E : Env) (rows : list ScoredRow)
    (sevs : list (option float * float)) (trace trace' : list request)
    (i : nat) (row : ScoredRow) :
  severity_loop E rows trace = (Ok sevs, trace') →
  rows !! i = Some row → future_event (base row) = true →
  sevs !! i = Some (None, anticipated_of E row).
Proof.
  intros Hloop (earlier & later & -> & <-)%lookup_middle Hf.
  apply severity_loop_at in Hloop as (sev & sent & Hsev & Hrow).
  rewrite severity_row_future_of in Hrow by done. by injection Hrow as <- _.
Qed.

Lemma severity_loop_all_future (E : Env) (rows : list ScoredRow) (trace : list request) :
  Forall (λ row, future_event (base row) = true) rows →
  severity_loop E rows trace = (Ok ((λ row, (None, anticipated_of E row)) <$> rows), trace).
Proof.
  induction 1 as [|row rows Hrow _ IH]; [done|].
  by rewrite severity_loop_cons, severity_row_future_of, IH.
Qed.

Lemma zip_with_project_fmap (rows : list ScoredRow) (f : ScoredRow → option float * float) :
  zip_with project rows (f <$> rows) = (λ row, project row (f row)) <$> rows.
Proof. induction rows as [|row rows IH]; [done|]. cbn. by rewrite IH. Qed.

(** C1, at the failing input: the five-column frame that the main block
    passes, with the one row of the end-to-end scenario, whatever the clock
    reads. [enrich_data] raises [KeyError] for [headline] at line 162, before
    the loop, and returns no record: no final severity is set and no
    anticipated severity computed, where the claim has both for a future
    row. The loop itself does what the claim says. Its body appends null and
    [severity_level * volatility_factor * sentiment_factor * domain_factor],
    the composite formula with 1.0 for the coverage factor, for a future row
    and sends nothing; a loop that returns has done so for each future row
    of the batch, at the place of the row; on a batch of future rows it
    always returns, with the trace unchanged. So on a frame that reaches the
    loop the record of each future row has a null final severity and that
    product as anticipated severity, and on such a frame whose times are all
    after the clock reading [enrich_data] returns these records and has sent
    no request. *)
Theorem future_event_severity (E : Env) :
  (∀ trace, enrich_data E [fomc_row] trace = (Raise (KeyError "headline"), trace)) ∧
  (∀ row trace,
      future_event (base row) = true →
      severity_row E row trace
      = (Ok (None, (official_sev row * vol_factor E row * sentiment_f row * domain_f row)%float),
         trace)
      ∧ (official_sev row * vol_factor E row * sentiment_f row * domain_f row)%float
        = composite (official_sev row) (vol_factor E row) 1.0 (sentiment_f row) (domain_f row)) ∧
  (∀ rows trace sevs trace',
      severity_loop E rows trace = (Ok sevs, trace') →
      length sevs = length rows ∧
      ∀ i row,
        rows !! i = Some row → future_event (base row) = true →
        sevs !! i = Some (None, anticipated_of E row)) ∧
  (∀ rows trace,
      Forall (λ row, future_event (base row) = true) rows →
      severity_loop E rows trace
      = (Ok ((λ row, (None, anticipated_of E row)) <$> rows), trace)) ∧
  (∀ df trace out trace',
      enrich_data E df trace = (Ok out, trace') →
      ∃ rows,
        scored_frame E df = Ok rows ∧
        raw ∘ base <$> rows = kept_rows df ∧
        Forall (row_invariant E df (base <$> rows)) rows ∧
        length out = length rows ∧
        ∀ i row,
          rows !! i = Some row →
          (future_event (base row) = true ↔ now_ms E < time_ms (base row)) ∧
          (future_event (base row) = true →
           out !! i = Some (project row (None, anticipated_of E row)))) ∧
  (∀ df trace,
      reaches_loop df →
      (∀ row t,
          row ∈ kept_rows df →
          convert_to_utc_ms (date_label row) (time_label row) = Ok (Some t) →
          now_ms E < t) →
      ∃ rows,
        scored_frame E df = Ok rows ∧
        raw ∘ base <$> rows = kept_rows df ∧
        Forall (row_invariant E df (base <$> rows)) rows ∧
        enrich_data E df trace
        = (Ok ((λ row, project row (None, anticipated_of E row)) <$> rows), trace)).
Proof.
  split; [|split; [|split; [|split; [|split]]]].
  - intros trace.
    apply (enrich_data_KeyError E [fomc_row] [(fomc_row, 1727857800000)]
             [Some 1727857800000]); [vm_compute; reflexivity..|done|].
    repeat constructor. intros v Hin. by apply elem_of_nil in Hin.
  - intros row trace Hf. rewrite composite_no_coverage.
    split; [|done]. by apply severity_row_future_of.
  - intros rows trace sevs trace' Hloop.
    split; [by eapply severity_loop_length|].
    intros i row Hrow Hf. by eapply severity_loop_future_at.
  - intros rows trace Hall. by apply severity_loop_all_future.
  - intros df trace out trace' (rows & sevs & Hrows & Hloop & ->)%enrich_data_ok_inv.
    pose proof (scored_frame_inv _ _ _ Hrows) as Hinv.
    exists rows. split; [done|]. split; [by eapply scored_frame_rows|].
    split; [done|].
    split; [apply zip_with_project_length; by eapply severity_loop_length|].
    intros i row Hrow. split.
    + rewrite (inv_future _ _ _ _ (Forall_lookup_1 _ _ _ _ Hinv Hrow)).
      apply bool_decide_eq_true.
    + intros Hf. apply zip_with_project_lookup; [done|].
      by eapply severity_loop_future_at.
  - intros df trace Hdf Hclock.
    destruct (scored_frame_returns E df Hdf) as (rows & Hrows).
    pose proof (scored_frame_inv _ _ _ Hrows) as Hinv.
    pose proof (scored_frame_rows _ _ _ Hrows) as Hkept.
    exists rows. split; [done|]. split; [done|]. split; [done|].
    rewrite <- zip_with_project_fmap. apply enrich_data_of_loop; [done|].
    apply severity_loop_all_future, Forall_forall. intros row Hrow.
    pose proof (proj1 (Forall_forall _ _) Hinv _ Hrow) as Hr.
    rewrite (inv_future _ _ _ _ Hr). apply bool_decide_eq_true.
    apply (Hclock (raw (base row))); [|apply Hr].
    unfold kept_rows. rewrite <- Hkept. apply list_elem_of_fmap. by exists row.
Qed.

Lemma future_event_severity_witness :
  ∃ rows,
    scored_frame (with_clock sample_env 1700000000000)
      [with_headline fomc_row "Fed FOMC Rate Decision"] = Ok rows ∧
    raw ∘ base <$> rows = kept_rows [with_headline fomc_row "Fed FOMC Rate Decision"] ∧
    Forall (row_invariant (with_clock sample_env 1700000000000)
              [with_headline fomc_row "Fed FOMC Rate Decision"] (base <$> rows)) rows ∧
    enrich_data (with_clock sample_env 1700000000000)
      [with_headline fomc_row "Fed FOMC Rate Decision"] []
    = (Ok ((λ row, project row
                     (None, anticipated_of (with_clock sample_env 1700000000000) row))
             <$> rows), []).
Proof.
  assert (Hallowed : filter_allowed [with_headline fomc_row "Fed FOMC Rate Decision"]
                     = [with_headline fomc_row "Fed FOMC Rate Decision"])
    by (vm_compute; reflexivity).
  assert (Hkept : kept_rows [with_headline fomc_row "Fed FOMC Rate Decision"]
                  = [with_headline fomc_row "Fed FOMC Rate Decision"])
    by (vm_compute; reflexivity).
  apply (proj2 (proj2 (proj2 (proj2 (proj2
           (future_event_severity (with_clock sample_env 1700000000000))))))).
  - split.
    + rewrite Hallowed. apply Forall_singleton. eexists. vm_compute. reflexivity.
    + by rewrite Hkept.
    + rewrite Hkept. apply Forall_singleton. by eexists.
  - rewrite Hkept. intros row t ->%list_elem_of_singleton. vm_compute.
    intros [= <-]. reflexivity.
Defined.

(** ** Past events *)





